(** * WebAuthn varsig: varint codec, envelope encoder/decoder, verifier,
      base64url wrapping and did:key derivation of ucan-upload-wall.

    Shallow embedding of [web/src/lib/webauthn-varsig/{utils,encoder,decoder,
    verifier}.ts] and of the did:key helpers of the hardware signer.
    Byte arrays ([Uint8Array]) are [list Z] with elements in [0, 256);
    JavaScript strings are [list Z] of UTF-16 code units; JavaScript
    numbers used as integers are [Z], with the 32-bit wrap-around of the
    bitwise operators written out.  Exceptions are the [Throw] branch of
    the [Exn] result type. *)

From Stdlib Require Import String Ascii ZArith List Lia Bool.
Import ListNotations.
Open Scope Z_scope.

(* ------------------------------------------------------------------ *)
(** ** JavaScript values and exceptions *)

Inductive SignatureAlgorithm := Ed25519 | P256.

(** The exceptions raised along the modelled paths. *)
Inductive js_error :=
| VarintIncomplete                      (* 'Varint incomplete' *)
| VarintTooLarge                        (* 'Varint too large (...)' *)
| UnsupportedMulticodec (m : Z)         (* 'Unsupported multicodec: 0x..' *)
| InvalidAuthDataLength                 (* 'Invalid authenticatorData length' *)
| InvalidClientDataLength               (* 'Invalid clientDataJSON length' *)
| InvalidSignatureLength (alg : SignatureAlgorithm) (got : Z)
| RangeError                            (* TypedArray.prototype.set out of bounds *)
| TypeError                             (* property access on null, missing method, ToPrimitive *)
| SyntaxError                           (* JSON.parse *)
| InvalidCharacterError                 (* atob / btoa *)
| ClientDataParseError (inner : js_error) (* 'Failed to parse clientDataJSON: ..' *)
| InvalidDidFormat                      (* 'Invalid DID format' *)
| MultibasePrefixError                  (* base58btc.decode: prefix is not 'z' *)
| NonBase58Character.                   (* base-x: 'Non-base58 character' *)

Inductive Exn (A : Type) :=
| Ok (a : A)
| Throw (e : js_error).
Arguments Ok {A} a.
Arguments Throw {A} e.

Definition bind {A B} (m : Exn A) (k : A -> Exn B) : Exn B :=
  match m with Ok a => k a | Throw e => Throw e end.

Notation "x <- m ;; k" := (bind m (fun x => k))
  (at level 61, m at next level, right associativity).
Notation "' p <- m ;; k" := (bind m (fun x => match x with p => k end))
  (at level 61, p pattern, m at next level, right associativity).

(** ToInt32 and ToUint32 of an integral JavaScript number. *)
Definition ToUint32 (z : Z) : Z := z mod 2 ^ 32.
Definition ToInt32 (z : Z) : Z :=
  let m := z mod 2 ^ 32 in if m <? 2 ^ 31 then m else m - 2 ^ 32.

(** [a << s], [a | b] and [a >>> s] on numbers. *)
Definition js_shl (a s : Z) : Z := ToInt32 (Z.shiftl (ToInt32 a) (Z.land (ToUint32 s) 31)).
Definition js_or (a b : Z) : Z := ToInt32 (Z.lor (ToInt32 a) (ToInt32 b)).
Definition js_ushr (a s : Z) : Z := Z.shiftr (ToUint32 a) (Z.land (ToUint32 s) 31).

(** [x & m] for a read [bytes[i]] that may be [undefined] (ToInt32 of
    [undefined] is 0). *)
Definition read_and (r : option Z) (m : Z) : Z :=
  match r with Some b => Z.land (ToInt32 b) m | None => 0 end.

(* ------------------------------------------------------------------ *)
(** ** utils.ts: varintEncode / varintDecode *)

(** The [while (value >= 0x80)] loop.  After the first [>>>=] the value is
    below [2^25], so four rounds always suffice; [varintEncode_loop_fuel]
    below shows that more fuel changes nothing. *)
Fixpoint varintEncode_loop (fuel : nat) (value : Z) : list Z :=
  match fuel with
  | O => [Z.land value 127]
  | S f =>
      if 128 <=? value
      then Z.lor (Z.land value 127) 128 :: varintEncode_loop f (js_ushr value 7)
      else [Z.land value 127]
  end.

Definition varintEncode (value : Z) : list Z := varintEncode_loop 8 value.

(** Positions [offset + bytesRead] visited by the [while] loop of
    [varintDecode], as the values [bytes[offset + bytesRead]] read there:
    a negative index reads [undefined]. *)
Definition reads_from (bytes : list Z) (offset : Z) : list (option Z) :=
  if offset <? 0
  then repeat None (Z.to_nat (- offset)) ++ map Some bytes
  else map Some (skipn (Z.to_nat offset) bytes).

Fixpoint varintDecode_loop (reads : list (option Z)) (value shift bytesRead : Z)
  : Exn (Z * Z) :=
  match reads with
  | [] => Throw VarintIncomplete
  | byte :: rest =>
      let bytesRead := bytesRead + 1 in
      let value := js_or value (js_shl (read_and byte 127) shift) in
      if read_and byte 128 =? 0 then Ok (value, bytesRead)
      else
        let shift := shift + 7 in
        if 53 <? shift then Throw VarintTooLarge
        else varintDecode_loop rest value shift bytesRead
  end.

Definition varintDecode (bytes : list Z) (offset : Z) : Exn (Z * Z) :=
  varintDecode_loop (reads_from bytes offset) 0 0 0.

(** [concat]: a zero-filled [Uint8Array] of the total length, written with
    [TypedArray.prototype.set] at increasing offsets. *)
Definition typed_set (target src : list Z) (offset : Z) : Exn (list Z) :=
  if (offset <? 0) || (Z.of_nat (length target) <? offset + Z.of_nat (length src))
  then Throw RangeError
  else Ok (firstn (Z.to_nat offset) target ++ src
           ++ skipn (Z.to_nat offset + length src) target).

Fixpoint concat_loop (arrays : list (list Z)) (result : list Z) (offset : Z)
  : Exn (list Z) :=
  match arrays with
  | [] => Ok result
  | arr :: rest =>
      result <- typed_set result arr offset ;;
      concat_loop rest result (offset + Z.of_nat (length arr))
  end.

Definition concat (arrays : list (list Z)) : Exn (list Z) :=
  let totalLength := fold_left (fun sum arr => sum + Z.of_nat (length arr)) arrays 0 in
  concat_loop arrays (repeat 0 (Z.to_nat totalLength)) 0.

(** [Uint8Array.prototype.slice(start, end)]: negative indices count from
    the end, and both ends are clamped to [0, length]. *)
Definition rel_index (len i : Z) : Z :=
  if i <? 0 then Z.max (len + i) 0 else Z.min i len.

Definition slice (l : list Z) (start end_ : Z) : list Z :=
  let len := Z.of_nat (length l) in
  let k := rel_index len start in
  let final := rel_index len end_ in
  firstn (Z.to_nat (final - k)) (skipn (Z.to_nat k) l).

Definition slice_from (l : list Z) (start : Z) : list Z :=
  slice l start (Z.of_nat (length l)).

(* ------------------------------------------------------------------ *)
(** ** multicodec constants (index.ts) *)

Definition WEBAUTHN_ED25519 : Z := 11985.  (* 0x2ed1 *)
Definition WEBAUTHN_P256 : Z := 8790.      (* 0x2256 *)
Definition P256_PUB : Z := 4608.           (* 0x1200 *)

Definition ALGORITHM_TO_MULTICODEC (alg : SignatureAlgorithm) : Z :=
  match alg with Ed25519 => WEBAUTHN_ED25519 | P256 => WEBAUTHN_P256 end.

(** [MULTICODEC_TO_ALGORITHM[m] || null]. *)
Definition getAlgorithm (multicodec : Z) : option SignatureAlgorithm :=
  if multicodec =? WEBAUTHN_ED25519 then Some Ed25519
  else if multicodec =? WEBAUTHN_P256 then Some P256
  else None.

(* ------------------------------------------------------------------ *)
(** ** encoder.ts / decoder.ts *)

Record WebAuthnAssertion := mkAssertion {
  authenticatorData : list Z;
  clientDataJSON : list Z;
  signature : list Z }.

Record DecodedVarsig := mkDecoded {
  dec_multicodec : Z;
  dec_algorithm : option SignatureAlgorithm;
  dec_authenticatorData : list Z;
  dec_clientDataJSON : list Z;
  dec_signature : list Z }.

Definition encodeWebAuthnVarsig (assertion : WebAuthnAssertion)
  (algorithm : SignatureAlgorithm) : Exn (list Z) :=
  let multicodec := ALGORITHM_TO_MULTICODEC algorithm in
  let multicodecBytes := varintEncode multicodec in
  let authDataLenBytes := varintEncode (Z.of_nat (length (authenticatorData assertion))) in
  let clientDataLenBytes := varintEncode (Z.of_nat (length (clientDataJSON assertion))) in
  concat [multicodecBytes; authDataLenBytes; authenticatorData assertion;
          clientDataLenBytes; clientDataJSON assertion; signature assertion].

(** The final signature-length validation of [decodeWebAuthnVarsig]. *)
Definition check_signature_length (algorithm : option SignatureAlgorithm) (len : Z)
  : Exn unit :=
  match algorithm with
  | Some Ed25519 =>
      if negb (len =? 64) then Throw (InvalidSignatureLength Ed25519 len) else Ok tt
  | Some P256 =>
      if (len <? 64) || (74 <? len) then Throw (InvalidSignatureLength P256 len) else Ok tt
  | None => Ok tt
  end.

Definition decodeWebAuthnVarsig (varsig : list Z) : Exn DecodedVarsig :=
  let len := Z.of_nat (length varsig) in
  '(multicodec, multicodecLen) <- varintDecode varsig 0 ;;
  let offset := 0 + multicodecLen in
  if negb (multicodec =? WEBAUTHN_ED25519) && negb (multicodec =? WEBAUTHN_P256)
  then Throw (UnsupportedMulticodec multicodec) else
  let algorithm := getAlgorithm multicodec in
  '(authDataLen, authDataLenLen) <- varintDecode varsig offset ;;
  let offset := offset + authDataLenLen in
  if len <? offset + authDataLen then Throw InvalidAuthDataLength else
  let authenticatorData := slice varsig offset (offset + authDataLen) in
  let offset := offset + authDataLen in
  '(clientDataLen, clientDataLenLen) <- varintDecode varsig offset ;;
  let offset := offset + clientDataLenLen in
  if len <? offset + clientDataLen then Throw InvalidClientDataLength else
  let clientDataJSON := slice varsig offset (offset + clientDataLen) in
  let offset := offset + clientDataLen in
  let signature := slice_from varsig offset in
  _ <- check_signature_length algorithm (Z.of_nat (length signature)) ;;
  Ok (mkDecoded multicodec algorithm authenticatorData clientDataJSON signature).

(* ------------------------------------------------------------------ *)
(** ** Strings, btoa / atob and the base64url helpers of utils.ts *)

(** A JavaScript string literal as its UTF-16 code units. *)
Definition js_str (s : string) : list Z :=
  map (fun a => Z.of_nat (nat_of_ascii a)) (list_ascii_of_string s).

Fixpoint zlist_eqb (a b : list Z) : bool :=
  match a, b with
  | [], [] => true
  | x :: a', y :: b' => (x =? y) && zlist_eqb a' b'
  | _, _ => false
  end.

(** [s.replace(/c/g, r)] for a one-character pattern [c]. *)
Definition replace_all (c : Z) (r : list Z) (s : list Z) : list Z :=
  flat_map (fun x => if x =? c then r else [x]) s.

(** The base64 alphabet (RFC 4648, section 4) and its inverse. *)
Definition b64_char (x : Z) : Z :=
  if x <? 26 then 65 + x
  else if x <? 52 then 97 + (x - 26)
  else if x <? 62 then 48 + (x - 52)
  else if x =? 62 then 43 else 47.

Definition b64_index (c : Z) : Z :=
  if (65 <=? c) && (c <=? 90) then c - 65
  else if (97 <=? c) && (c <=? 122) then c - 97 + 26
  else if (48 <=? c) && (c <=? 57) then c - 48 + 52
  else if c =? 43 then 62 else 63.

Definition is_b64_char (c : Z) : bool :=
  ((65 <=? c) && (c <=? 90)) || ((97 <=? c) && (c <=? 122)) ||
  ((48 <=? c) && (c <=? 57)) || (c =? 43) || (c =? 47).

(** [btoa]: every code unit must be at most 0xFF; groups of three bytes
    become four characters, a final group of one or two bytes is padded
    with [=]. *)
Fixpoint b64_encode (l : list Z) : list Z :=
  match l with
  | a :: b :: c :: rest =>
      [b64_char (a / 4); b64_char (a mod 4 * 16 + b / 16);
       b64_char (b mod 16 * 4 + c / 64); b64_char (c mod 64)] ++ b64_encode rest
  | [a; b] =>
      [b64_char (a / 4); b64_char (a mod 4 * 16 + b / 16); b64_char (b mod 16 * 4); 61]
  | [a] => [b64_char (a / 4); b64_char (a mod 4 * 16); 61; 61]
  | [] => []
  end.

Definition btoa (s : list Z) : Exn (list Z) :=
  if forallb (fun c => (0 <=? c) && (c <=? 255)) s then Ok (b64_encode s)
  else Throw InvalidCharacterError.

(** [atob]: the forgiving-base64 decode of the HTML standard.  Whitespace
    is removed; a length divisible by 4 loses one or two trailing [=]; a
    length of 1 modulo 4 or a character outside the alphabet fails; each
    character appends six bits to a buffer, which yields three bytes when
    it holds 24 bits; 12 or 18 leftover bits yield one or two bytes. *)
Definition is_ascii_whitespace (c : Z) : bool :=
  (c =? 9) || (c =? 10) || (c =? 12) || (c =? 13) || (c =? 32).

Definition strip_padding (d : list Z) : list Z :=
  match rev d with
  | 61 :: 61 :: r => rev r
  | 61 :: r => rev r
  | _ => d
  end.

Fixpoint b64_decode_loop (cs : list Z) (buffer : Z) (bits : nat) : list Z :=
  match cs with
  | [] =>
      if Nat.eqb bits 12 then [buffer / 16]
      else if Nat.eqb bits 18 then [buffer / 1024; buffer / 4 mod 256]
      else []
  | c :: rest =>
      let buffer := buffer * 64 + b64_index c in
      if Nat.eqb (bits + 6) 24
      then [buffer / 65536; buffer / 256 mod 256; buffer mod 256] ++ b64_decode_loop rest 0 0
      else b64_decode_loop rest buffer (bits + 6)
  end.

Definition atob (s : list Z) : Exn (list Z) :=
  let data := filter (fun c => negb (is_ascii_whitespace c)) s in
  let data := if Nat.eqb (length data mod 4) 0 then strip_padding data else data in
  if Nat.eqb (length data mod 4) 1 then Throw InvalidCharacterError
  else if negb (forallb is_b64_char data) then Throw InvalidCharacterError
  else Ok (b64_decode_loop data 0 0).

(** utils.ts: [base64urlToBytes]. *)
Definition base64urlToBytes (base64url : list Z) : Exn (list Z) :=
  let base64 := replace_all 95 [47] (replace_all 45 [43] base64url) in
  let padding := repeat 61 ((4 - length base64 mod 4) mod 4) in
  let paddedBase64 := base64 ++ padding in
  binaryString <- atob paddedBase64 ;;
  Ok (map (fun c => c mod 256) binaryString).

(** utils.ts: [bytesToBase64url]. *)
Definition bytesToBase64url (bytes : list Z) : Exn (list Z) :=
  let binaryString := bytes in
  base64 <- btoa binaryString ;;
  Ok (replace_all 61 [] (replace_all 47 [95] (replace_all 43 [45] base64))).

(** utils.ts: [bytesEqual]. *)
Definition bytesEqual (a b : list Z) : bool :=
  if negb (Nat.eqb (length a) (length b)) then false
  else (fix loop (a b : list Z) : bool :=
          match a, b with
          | x :: a', y :: b' => if negb (x =? y) then false else loop a' b'
          | _, _ => true
          end) a b.

(* ------------------------------------------------------------------ *)
(** ** decoder.ts: parseClientDataJSON; verifier.ts: verifyWebAuthnAssertion *)

(** Values produced by [JSON.parse]; a number carries the string
    [ToString] gives for it. *)
#[warnings="-register-all"]
Inductive json :=
| JNull
| JBool (b : bool)
| JNum (repr : list Z)
| JStr (s : list Z)
| JArr (items : list json)
| JObj (members : list (list Z * json)).

(** [JSON.parse] keeps the last of duplicated member names. *)
Fixpoint member_lookup (key : list Z) (members : list (list Z * json)) : option json :=
  match members with
  | [] => None
  | (k, v) :: rest =>
      match member_lookup key rest with
      | Some w => Some w
      | None => if zlist_eqb k key then Some v else None
      end
  end.

(** [parsed.key]: reading a property of [null] throws; primitives and
    arrays have none of the keys read here. *)
Definition get_property (v : json) (key : list Z) : Exn (option json) :=
  match v with
  | JNull => Throw TypeError
  | JObj members => Ok (member_lookup key members)
  | _ => Ok None
  end.

(** [`${x}`] of a value read from parsed JSON ([None] is [undefined]).
    An object with an own [toString] member has no callable [toString] nor
    a [valueOf] giving a primitive, so ToPrimitive throws a TypeError;
    arrays are joined with [","], [null] items giving the empty string. *)
Fixpoint json_to_string (v : json) : Exn (list Z) :=
  match v with
  | JNull => Ok (js_str "null")
  | JBool true => Ok (js_str "true")
  | JBool false => Ok (js_str "false")
  | JNum repr => Ok repr
  | JStr s => Ok s
  | JObj members =>
      match member_lookup (js_str "toString") members with
      | Some _ => Throw TypeError
      | None => Ok (js_str "[object Object]")
      end
  | JArr items =>
      (fix join (items : list json) : Exn (list Z) :=
         match items with
         | [] => Ok []
         | [x] => match x with JNull => Ok [] | _ => json_to_string x end
         | x :: rest =>
             s <- match x with JNull => Ok [] | _ => json_to_string x end ;;
             r <- join rest ;;
             Ok (s ++ [44] ++ r)
         end) items
  end.

Definition template_string (v : option json) : Exn (list Z) :=
  match v with None => Ok (js_str "undefined") | Some x => json_to_string x end.

(** [try ... catch (error) ...]. *)
Definition js_try {A} (m : Exn A) (handler : js_error -> Exn A) : Exn A :=
  match m with Ok a => Ok a | Throw e => handler e end.

Record ClientDataJSON := mkClientData {
  cd_type : option json;
  cd_challenge : option json;
  cd_origin : option json;
  cd_crossOrigin : option json }.

Section Verifier.

(** [JSON.parse(new TextDecoder().decode(bytes))], a platform built-in:
    either a value or a [SyntaxError]. *)
Variable JSON_parse : list Z -> Exn json.

Definition parseClientDataJSON (bytes : list Z) : Exn ClientDataJSON :=
  js_try
    (parsed <- JSON_parse bytes ;;
     type <- get_property parsed (js_str "type") ;;
     challenge <- get_property parsed (js_str "challenge") ;;
     origin <- get_property parsed (js_str "origin") ;;
     crossOrigin <- get_property parsed (js_str "crossOrigin") ;;
     Ok (mkClientData type challenge origin crossOrigin))
    (fun error => Throw (ClientDataParseError error)).

Record VerificationOptions := mkOptions {
  expectedOrigin : list Z;
  expectedChallenge : list Z;
  requireUserVerification : option bool }.

Record Flags := mkFlags {
  userPresent : bool;
  userVerified : bool;
  backupEligible : bool;
  backupState : bool }.

(** The [error] strings of the failure results, by the template they are
    built from. *)
Inductive VerifyError :=
| ErrCeremonyType (got : list Z)             (* 'Invalid ceremony type: ..' *)
| ErrOriginMismatch (expected got : list Z)  (* 'Origin mismatch: ..' *)
| ErrChallengeMismatch                       (* 'Challenge mismatch' *)
| ErrAuthDataLength (len : Z)                (* 'Invalid authenticatorData length: ..' *)
| ErrUserNotPresent                          (* 'User presence (UP) flag not set' *)
| ErrUserNotVerified                         (* 'User verification (UV) flag not set' *)
| ErrVerificationFailed (e : js_error).      (* 'Verification failed: ..' *)

Record VerificationResult := mkResult {
  valid : bool;
  error : option VerifyError;
  clientData : option ClientDataJSON;
  flags : option Flags }.

Definition failure (e : VerifyError) : VerificationResult := mkResult false (Some e) None None.

(** [x === s] for a value read from parsed JSON and a string [s]. *)
Definition js_str_eq (v : option json) (s : list Z) : bool :=
  match v with Some (JStr t) => zlist_eqb t s | _ => false end.

(** [base64urlToBytes(clientData.challenge)]: a value that is not a string
    has no callable [replace]. *)
Definition challenge_bytes (challenge : option json) : Exn (list Z) :=
  match challenge with Some (JStr s) => base64urlToBytes s | _ => Throw TypeError end.

Definition verify_body (decoded : DecodedVarsig) (options : VerificationOptions)
  : Exn VerificationResult :=
  clientData <- parseClientDataJSON (dec_clientDataJSON decoded) ;;
  if negb (js_str_eq (cd_type clientData) (js_str "webauthn.get")) then
    t <- template_string (cd_type clientData) ;;
    Ok (failure (ErrCeremonyType t))
  else if negb (js_str_eq (cd_origin clientData) (expectedOrigin options)) then
    o <- template_string (cd_origin clientData) ;;
    Ok (failure (ErrOriginMismatch (expectedOrigin options) o))
  else
    challengeBytes <- challenge_bytes (cd_challenge clientData) ;;
    if negb (bytesEqual challengeBytes (expectedChallenge options)) then
      Ok (failure ErrChallengeMismatch)
    else
      let authData := dec_authenticatorData decoded in
      if Z.of_nat (length authData) <? 37 then
        Ok (failure (ErrAuthDataLength (Z.of_nat (length authData))))
      else
        let flagsByte := nth 32 authData 0 in
        let up := negb (Z.land flagsByte 1 =? 0) in
        let uv := negb (Z.land flagsByte 4 =? 0) in
        let be := negb (Z.land flagsByte 8 =? 0) in
        let bs := negb (Z.land flagsByte 16 =? 0) in
        if negb up then Ok (failure ErrUserNotPresent)
        else if negb (match requireUserVerification options with
                      | Some false => true | _ => false end) && negb uv
        then Ok (failure ErrUserNotVerified)
        else Ok (mkResult true None (Some clientData) (Some (mkFlags up uv be bs))).

Definition verifyWebAuthnAssertion (decoded : DecodedVarsig) (options : VerificationOptions)
  : Exn VerificationResult :=
  js_try (verify_body decoded options)
    (fun error => Ok (failure (ErrVerificationFailed error))).

End Verifier.

(** The two length prefixes read by [decodeWebAuthnVarsig] from [v] (the
    authenticatorData and clientDataJSON lengths) are non-negative numbers,
    i.e. neither five-byte varint wrapped around to a negative 32-bit value. *)
Definition decoded_length_prefixes_nonneg (v : list Z) : Prop :=
  forall m l1 la l2,
    varintDecode v 0 = Ok (m, l1) -> varintDecode v l1 = Ok (la, l2) ->
    0 <= la /\
    (forall lc l3, varintDecode v (l1 + l2 + la) = Ok (lc, l3) -> 0 <= lc).

(** Sample envelope parts: 37 bytes of authenticator data with flags
    0x05 (UP and UV), and the client data [{}]. *)
Definition sample_authData : list Z := repeat 0 32 ++ [5; 0; 0; 0; 1].
Definition sample_clientData : list Z := [123; 125].

(** A client data parse result for the examples: [type], [challenge]
    (base64url of the bytes 1, 2, 3) and [origin]. *)
Definition sample_client (type origin : string) : json :=
  JObj [(js_str "type", JStr (js_str type));
        (js_str "challenge", JStr (js_str "AQID"));
        (js_str "origin", JStr (js_str origin))].

Definition sample_options (uv : option bool) : VerificationOptions :=
  mkOptions (js_str "https://example.com") [1; 2; 3] uv.

Definition sample_decoded (authData : list Z) : DecodedVarsig :=
  mkDecoded 11985 (Some Ed25519) authData sample_clientData (repeat 7 64).

(** Ed25519 and P-256 envelopes around the sample parts, with the
    trailing signature [sig]. *)
Definition ed_envelope (sig : list Z) : list Z :=
  [209; 93] ++ varintEncode 37 ++ sample_authData ++ [2] ++ sample_clientData ++ sig.
Definition p256_envelope (sig : list Z) : list Z :=
  [214; 68] ++ varintEncode 37 ++ sample_authData ++ [2] ++ sample_clientData ++ sig.

(** A [JSON.parse] that returns [sample_client type origin] for any input,
    and one that rejects every input with a [SyntaxError]. *)
Definition sample_parse (type origin : string) : list Z -> Exn json :=
  fun _ => Ok (sample_client type origin).
Definition failing_parse : list Z -> Exn json := fun _ => Throw SyntaxError.

(** The client data record read from [sample_client type origin]. *)
Definition sample_client_record (type origin : string) : ClientDataJSON :=
  mkClientData (Some (JStr (js_str type))) (Some (JStr (js_str "AQID")))
               (Some (JStr (js_str origin))) None.

(** 37 bytes of authenticator data with flags 0x01 (UP only). *)
Definition up_only_authData : list Z := repeat 0 32 ++ [1; 0; 0; 0; 0].

(** Client data whose [type] is an object with an own [toString] member
    that is not a function, and whose origin is [https://evil.com]. *)
Definition toString_type : json := JObj [(js_str "toString", JNum (js_str "1"))].

Definition toString_type_client : json :=
  JObj [(js_str "type", toString_type); (js_str "origin", JStr (js_str "https://evil.com"))].

(* ------------------------------------------------------------------ *)
(** ** did:key identifiers: multiformats' base58btc, createEd25519Did,
    createP256Did and extractPublicKeyFromDid *)

(** The codec [base58btc] of [multiformats/bases/base58] is the base-x
    codec over the alphabet below, behind the multibase prefix [z].
    base-x encodes a byte string as one [1] per leading zero byte followed
    by the base-58 digits (most significant first, without leading zeros)
    of the number the remaining bytes spell in base 256; decoding reverses
    this (see [baseX_decode] for the characters outside the alphabet). *)
Definition base58_alphabet : list Z :=
  js_str "123456789ABCDEFGHJKLMNPQRSTUVWXYZabcdefghijkmnopqrstuvwxyz".

Definition b58_char (d : Z) : Z := nth (Z.to_nat d) base58_alphabet 0.

Fixpoint index_of (c : Z) (l : list Z) (i : Z) : option Z :=
  match l with
  | [] => None
  | x :: l' => if x =? c then Some i else index_of c l' (i + 1)
  end.

(** [BASE_MAP]: the digit of a character, if it is in the alphabet. *)
Definition b58_index (c : Z) : option Z := index_of c base58_alphabet 0.

Fixpoint count_leading (z : Z) (l : list Z) : nat :=
  match l with
  | x :: l' => if x =? z then S (count_leading z l') else O
  | [] => O
  end.

(** The number spelled by digits [ds] in base [base], most significant
    first. *)
Definition be_value (base : Z) (ds : list Z) : Z :=
  fold_left (fun acc d => acc * base + d) ds 0.

(** The digits of [n] in base [base], least significant first; the fuel
    [log2 n + 1] bounds the number of digits. *)
Fixpoint le_digits (fuel : nat) (base n : Z) : list Z :=
  match fuel with
  | O => []
  | S f => if n <=? 0 then [] else n mod base :: le_digits f base (n / base)
  end.

Definition be_digits (base n : Z) : list Z :=
  rev (le_digits (S (Z.to_nat (Z.log2 n))) base n).

(** The number spelled by digits [ds] in base [base], least significant
    first, and canonical digit lists: each digit below [base], the most
    significant one not 0. *)
Fixpoint le_value (base : Z) (ds : list Z) : Z :=
  match ds with [] => 0 | d :: ds' => d + base * le_value base ds' end.

Definition canonical_le (base : Z) (ds : list Z) : Prop :=
  Forall (fun d => 0 <= d < base) ds /\ last ds 1 <> 0.

(** base-x's [BASE_MAP[c]]: a [Uint8Array(256)] holding the digit of each
    alphabet character and 255 at every other index; a code unit above 255
    reads [undefined] ([None]). *)
Definition BASE_MAP (c : Z) : option Z :=
  if (0 <=? c) && (c <? 256) then
    match b58_index c with Some d => Some d | None => Some 255 end
  else None.

(** The [while (source[psz])] loop of base-x's [decodeUnsafe], on the number
    [N] held big-endian in [b256]: [carry === 255] returns [undefined]
    (decoding fails); a digit [d] turns [N] into [58 N + d]; an [undefined]
    carry makes the first [carry += ..] NaN, whose [% 256 >>> 0] and
    [/ 256 >>> 0] are 0, so the lowest byte becomes 0 and the bytes above
    it are multiplied by 58 with no carry in.  Each step at most multiplies
    [N] by 58 and adds 57, so [N] stays within the [size] bytes allocated
    for the characters and the 'Non-zero carry' throw is never reached. *)
Fixpoint baseX_decode_loop (N : Z) (source : list Z) : option Z :=
  match source with
  | [] => Some N
  | c :: rest =>
      match BASE_MAP c with
      | Some carry =>
          if carry =? 255 then None else baseX_decode_loop (58 * N + carry) rest
      | None => baseX_decode_loop (256 * (58 * (N / 256))) rest
      end
  end.

Definition baseX_encode (source : list Z) : list Z :=
  let zeroes := count_leading 0 source in
  repeat 49 zeroes ++ map b58_char (be_digits 58 (be_value 256 (skipn zeroes source))).

Definition baseX_decode (source : list Z) : Exn (list Z) :=
  let zeroes := count_leading 49 source in
  match baseX_decode_loop 0 (skipn zeroes source) with
  | None => Throw NonBase58Character
  | Some n => Ok (repeat 0 zeroes ++ be_digits 256 n)
  end.

(** [base58btc.encode] and [base58btc.decode] (multibase prefix [z]). *)
Definition base58btc_encode (bytes : list Z) : list Z := 122 :: baseX_encode bytes.

Definition base58btc_decode (text : list Z) : Exn (list Z) :=
  match text with
  | c :: rest => if c =? 122 then baseX_decode rest else Throw MultibasePrefixError
  | [] => Throw MultibasePrefixError
  end.

(** [s.startsWith(prefix)]. *)
Definition starts_with (s prefix : list Z) : bool :=
  zlist_eqb (firstn (length prefix) s) prefix.

(** [a[i] = v] on a [Uint8Array]: the value is stored modulo 256, an index
    out of range is ignored. *)
Definition typed_store (a : list Z) (i : nat) (v : Z) : list Z :=
  if (i <? length a)%nat then firstn i a ++ [v mod 256] ++ skipn (S i) a else a.

(** part_007: [createEd25519Did]. *)
Definition createEd25519Did (publicKey : list Z) : Exn (list Z) :=
  let multikey := repeat 0 (2 + length publicKey) in
  let multikey := typed_store multikey 0 237 in
  let multikey := typed_store multikey 1 1 in
  multikey <- typed_set multikey publicKey 2 ;;
  let encoded := base58btc_encode multikey in
  Ok (js_str "did:key:" ++ encoded).

(** part_007: [createP256Did]. *)
Definition createP256Did (publicKey : list Z) : Exn (list Z) :=
  let multicodecPrefix := [128; 36] in
  let multikey := repeat 0 (length multicodecPrefix + length publicKey) in
  multikey <- typed_set multikey multicodecPrefix 0 ;;
  multikey <- typed_set multikey publicKey (Z.of_nat (length multicodecPrefix)) ;;
  let encoded := base58btc_encode multikey in
  Ok (js_str "did:key:" ++ encoded).

(** part_005: [extractPublicKeyFromDid]. *)
Definition extractPublicKeyFromDid (did : list Z) : Exn (list Z) :=
  if negb (starts_with did (js_str "did:key:z")) then Throw InvalidDidFormat
  else
    let encoded := skipn 8 did in
    multikey <- base58btc_decode encoded ;;
    Ok (slice_from multikey 2).

(* ------------------------------------------------------------------ *)
(** ** More of the varsig library: multicodec predicates, assertion
    validation, the signed-data reconstruction *)

(** index.ts: [isWebAuthnMulticodec]. *)
Definition isWebAuthnMulticodec (multicodec : Z) : bool :=
  (multicodec =? WEBAUTHN_ED25519) || (multicodec =? WEBAUTHN_P256).

(** The errors thrown by [validateWebAuthnAssertion]. *)
Inductive ValidationError :=
| AuthDataRequired        (* 'authenticatorData is required and cannot be empty' *)
| ClientDataRequired      (* 'clientDataJSON is required and cannot be empty' *)
| SignatureRequired       (* 'signature is required and cannot be empty' *)
| SignatureTooShort (len : Z).  (* 'Signature too short: .. bytes' *)

(** encoder.ts: [validateWebAuthnAssertion]; [Some e] when it throws [e],
    [None] when it returns.  A [Uint8Array] is always truthy, so each
    presence test reduces to its length test. *)
Definition validateWebAuthnAssertion (assertion : WebAuthnAssertion)
  : option ValidationError :=
  if Nat.eqb (length (authenticatorData assertion)) 0 then Some AuthDataRequired
  else if Nat.eqb (length (clientDataJSON assertion)) 0 then Some ClientDataRequired
  else if Nat.eqb (length (signature assertion)) 0 then Some SignatureRequired
  else if Z.of_nat (length (signature assertion)) <? 64
  then Some (SignatureTooShort (Z.of_nat (length (signature assertion))))
  else None.

(** verifier.ts: [reconstructSignedData], for the digest [sha256] computed
    by [crypto.subtle.digest('SHA-256', ..)]. *)
Definition reconstructSignedData (sha256 : list Z -> list Z) (decoded : DecodedVarsig)
  : Exn (list Z) :=
  let clientDataHash := sha256 (dec_clientDataJSON decoded) in
  let signedData :=
    repeat 0 (length (dec_authenticatorData decoded) + length clientDataHash) in
  signedData <- typed_set signedData (dec_authenticatorData decoded) 0 ;;
  signedData <- typed_set signedData clientDataHash
                  (Z.of_nat (length (dec_authenticatorData decoded))) ;;
  Ok signedData.

(* ------------------------------------------------------------------ *)
(** ** part_005: createHardwareDelegation (proof encoding) and
    verifyHardwareDelegation *)

(** [String.prototype.trim]: WhiteSpace and LineTerminator code units are
    removed from both ends. *)
Definition is_js_whitespace (c : Z) : bool :=
  (c =? 9) || (c =? 10) || (c =? 11) || (c =? 12) || (c =? 13) || (c =? 32) ||
  (c =? 160) || (c =? 5760) || ((8192 <=? c) && (c <=? 8202)) ||
  (c =? 8232) || (c =? 8233) || (c =? 8239) || (c =? 8287) || (c =? 12288) ||
  (c =? 65279).

Fixpoint drop_leading_ws (s : list Z) : list Z :=
  match s with
  | c :: s' => if is_js_whitespace c then drop_leading_ws s' else s
  | [] => []
  end.

Definition js_trim (s : list Z) : list Z := rev (drop_leading_ws (rev (drop_leading_ws s))).

(** The end of [createHardwareDelegation]: the archived CAR bytes become
    the proof ['u' + base64url without padding], through
    [btoa(String.fromCharCode(...bytes))]. *)
Definition createHardwareDelegation_proof (carBytes : list Z) : Exn (list Z) :=
  base64 <- btoa carBytes ;;
  Ok (js_str "u" ++ replace_all 61 [] (replace_all 47 [95] (replace_all 43 [45] base64))).

(** What [verifyHardwareDelegation] reads from the extracted delegation:
    [delegation.signature]; the bytes of
    [new TextEncoder().encode(JSON.stringify(delegation.data))], or the
    error reading or stringifying [delegation.data] throws (a [TypeError]
    for a [BigInt] in it, for instance); [delegation.issuer.did()] and
    [delegation.audience.did()]. *)
Record Delegation := mkDelegation {
  del_signature : list Z;
  del_payload : Exn (list Z);
  del_issuer : list Z;
  del_audience : list Z }.

(** The result of ucanto's [extract]: [{ok: delegation}] or [{error}].
    [(extractResult as any).ok || extractResult] is then the delegation, or
    the error object itself (truthy, without [signature], [data], [issuer]
    or [audience]). *)
Inductive ExtractResult :=
| ExtractOk (d : Delegation)
| ExtractError.

(** [delegation.signature] ([undefined] on the error object, and
    [new Uint8Array(undefined)] is empty). *)
Definition delegation_signature (delegation : ExtractResult) : list Z :=
  match delegation with ExtractOk d => del_signature d | ExtractError => [] end.

(** [new TextEncoder().encode(JSON.stringify(delegation.data))]
    ([JSON.stringify(undefined)] is [undefined], encoded as the empty
    string). *)
Definition delegation_payload (delegation : ExtractResult) : Exn (list Z) :=
  match delegation with ExtractOk d => del_payload d | ExtractError => Ok [] end.

(** [delegation.issuer.did()] and [delegation.audience.did()]: a
    [TypeError] on the error object. *)
Definition issuer_did (delegation : ExtractResult) : Exn (list Z) :=
  match delegation with ExtractOk d => Ok (del_issuer d) | ExtractError => Throw TypeError end.
Definition audience_did (delegation : ExtractResult) : Exn (list Z) :=
  match delegation with ExtractOk d => Ok (del_audience d) | ExtractError => Throw TypeError end.

Inductive HwError :=
| HwWebAuthnFailed (e : option VerifyError)   (* 'WebAuthn verification failed: ..' *)
| HwSignatureFailed                           (* 'Ed25519 signature verification failed' *)
| HwVerificationError (e : js_error).         (* 'Verification error: ..' *)

Record HwResult := mkHw {
  hw_valid : bool;
  hw_error : option HwError;
  hw_issuerDid : option (list Z);
  hw_audienceDid : option (list Z) }.

Definition hw_failure (e : HwError) : HwResult := mkHw false (Some e) None None.

Section HardwareDelegation.

(** [JSON.parse] of the client data, [crypto.subtle.digest('SHA-256', ..)],
    the [importKey] / [verify] calls of [verifyEd25519Signature] (which may
    reject), and ucanto's [extract]. *)
Variable JSON_parse : list Z -> Exn json.
Variable sha256 : list Z -> list Z.
Variable subtle_verify_ed25519 : list Z -> list Z -> list Z -> Exn bool.
Variable extract : list Z -> Exn ExtractResult.

(** verifier.ts: [verifyEd25519Signature signedData signature publicKey]:
    any rejection becomes [false]. *)
Definition verifyEd25519Signature (signedData signature publicKey : list Z) : Exn bool :=
  js_try (subtle_verify_ed25519 signedData signature publicKey) (fun _ => Ok false).

(** [verifyHardwareDelegation] from the extraction of the token bytes on:
    the inner [try] around the varsig checks, whose [catch] accepts the
    delegation. *)
Definition hw_check_delegation (tokenBytes expectedOrigin : list Z) : Exn HwResult :=
  extractResult <- extract tokenBytes ;;
  let delegation := extractResult in
  let signature := delegation_signature delegation in
  js_try
    (decoded <- decodeWebAuthnVarsig signature ;;
     payloadBytes <- delegation_payload delegation ;;
     let challengeHash := sha256 payloadBytes in
     verificationResult <- verifyWebAuthnAssertion JSON_parse decoded
                             (mkOptions expectedOrigin challengeHash (Some true)) ;;
     if negb (valid verificationResult)
     then Ok (hw_failure (HwWebAuthnFailed (error verificationResult)))
     else
       signedData <- reconstructSignedData sha256 decoded ;;
       issuer <- issuer_did delegation ;;
       publicKey <- extractPublicKeyFromDid issuer ;;
       signatureValid <- verifyEd25519Signature signedData (dec_signature decoded) publicKey ;;
       if negb signatureValid then Ok (hw_failure HwSignatureFailed)
       else
         issuerDid <- issuer_did delegation ;;
         audienceDid <- audience_did delegation ;;
         Ok (mkHw true None (Some issuerDid) (Some audienceDid)))
    (fun _ =>
       issuerDid <- issuer_did delegation ;;
       audienceDid <- audience_did delegation ;;
       Ok (mkHw true None (Some issuerDid) (Some audienceDid))).

(** part_005: [verifyHardwareDelegation delegationProof expectedOrigin]. *)
Definition verifyHardwareDelegation (delegationProof expectedOrigin : list Z)
  : Exn HwResult :=
  js_try
    (let cleanProof := js_trim delegationProof in
     let cleanProof :=
       if starts_with cleanProof (js_str "u") || starts_with cleanProof (js_str "m")
       then skipn 1 cleanProof else cleanProof in
     let base64 := replace_all 95 [47] (replace_all 45 [43] cleanProof) in
     let padding := repeat 61 ((4 - length base64 mod 4) mod 4) in
     binaryString <- atob (base64 ++ padding) ;;
     let tokenBytes := map (fun c => c mod 256) binaryString in
     hw_check_delegation tokenBytes expectedOrigin)
    (fun error => Ok (hw_failure (HwVerificationError error))).

End HardwareDelegation.

(** Stand-ins for the platform functions in the examples: a constant
    digest (the bytes 1, 2, 3, which [sample_client]'s challenge [AQID]
    encodes), a signature check that accepts everything, an [extract] with a
    fixed result, and a delegation with the given signature and issuer. *)
Definition sample_sha256 : list Z -> list Z := fun _ => [1; 2; 3].
Definition accept_all_verify : list Z -> list Z -> list Z -> Exn bool := fun _ _ _ => Ok true.
Definition sample_extract (r : ExtractResult) : list Z -> Exn ExtractResult := fun _ => Ok r.
Definition sample_delegation (sig : list Z) (issuer : string) : Delegation :=
  mkDelegation sig (Ok (js_str "{}")) (js_str issuer) (js_str "did:key:zAudience").

(** A character of the base64url alphabet: [A-Z], [a-z], [0-9], [-], [_]. *)
Definition is_b64url_char (c : Z) : Prop :=
  (65 <= c <= 90) \/ (97 <= c <= 122) \/ (48 <= c <= 57) \/ c = 45 \/ c = 95.


(* ================================================================== *)
(** * Properties *)

Example varintEncode_300 : varintEncode 300 = [172; 2].
Proof. reflexivity. Qed.
Example varintDecode_300 : varintDecode [172; 2] 0 = Ok (300, 2).
Proof. reflexivity. Qed.
Example varintDecode_2_31 : varintDecode (varintEncode (2 ^ 31)) 0 = Ok (- 2 ^ 31, 5).
Proof. reflexivity. Qed.
Example varintEncode_tags :
  varintEncode 11985 = [209; 93] /\ varintEncode 8790 = [214; 68] /\ varintEncode 4608 = [128; 36].
Proof. repeat split; reflexivity. Qed.

Example decode_encode_sample :
  (a <- encodeWebAuthnVarsig (mkAssertion sample_authData sample_clientData (repeat 7 64)) Ed25519 ;;
   decodeWebAuthnVarsig a)
  = Ok (mkDecoded 11985 (Some Ed25519) sample_authData sample_clientData (repeat 7 64)).
Proof. vm_compute. reflexivity. Qed.

(* ------------------------------------------------------------------ *)
(** ** Result-monad and list helpers *)

Lemma js_ushr_7_bound (v n : Z) :
  0 <= n -> 0 <= v < 128 * 2 ^ n -> 0 <= js_ushr v 7 < 2 ^ n.
Proof.
  intros Hn Hv. unfold js_ushr, ToUint32.
  change (Z.land (7 mod 2 ^ 32) 31) with 7.
  rewrite Z.shiftr_div_pow2 by lia. change (2 ^ 7) with 128.
  assert (0 <= v mod 2 ^ 32 <= v).
  { split; [apply Z.mod_pos_bound; lia | apply Z.mod_le; lia]. }
  split; [apply Z.div_pos; lia|]. apply Z.div_lt_upper_bound; lia.
Qed.

Lemma varintEncode_loop_small (n f : nat) (v : Z) :
  v < 128 * 2 ^ (7 * Z.of_nat n) ->
  varintEncode_loop (n + f) v = varintEncode_loop n v.
Proof.
  revert v. induction n as [|n IH]; intros v Hv; simpl Nat.add.
  - destruct f; simpl; [reflexivity|].
    replace (128 <=? v) with false by (symmetry; apply Z.leb_gt; lia). reflexivity.
  - cbn [varintEncode_loop]. destruct (128 <=? v) eqn:E; [|reflexivity].
    apply Z.leb_le in E. f_equal. apply IH.
    assert (H : 0 <= js_ushr v 7 < 2 ^ (7 * Z.of_nat (S n))).
    { apply js_ushr_7_bound; lia. }
    replace (7 * Z.of_nat (S n)) with (7 + 7 * Z.of_nat n) in H by lia.
    rewrite Z.pow_add_r in H by lia. change (2 ^ 7) with 128 in H. lia.
Qed.

(** Four rounds of the loop always suffice: more fuel gives the same bytes. *)
Lemma varintEncode_loop_fuel (f : nat) (v : Z) :
  varintEncode_loop (4 + f) v = varintEncode_loop 4 v.
Proof.
  change (4 + f)%nat with (S (3 + f)). cbn [varintEncode_loop].
  destruct (128 <=? v) eqn:E; [|reflexivity].
  apply Z.leb_le in E. f_equal. apply varintEncode_loop_small.
  assert (H : 0 <= js_ushr v 7 < 2 ^ 25).
  { unfold js_ushr, ToUint32. change (Z.land (7 mod 2 ^ 32) 31) with 7.
    rewrite Z.shiftr_div_pow2 by lia.
    assert (0 <= v mod 2 ^ 32 < 2 ^ 32) by (apply Z.mod_pos_bound; lia).
    split; [apply Z.div_pos; lia | apply Z.div_lt_upper_bound; lia]. }
  simpl. lia.
Qed.

Lemma bind_ok {A B} (m : Exn A) (k : A -> Exn B) r :
  bind m k = Ok r -> exists a, m = Ok a /\ k a = Ok r.
Proof. destruct m; simpl; [eauto | discriminate]. Qed.

Lemma fold_length_sum (arrays : list (list Z)) (acc : Z) :
  fold_left (fun sum arr => sum + Z.of_nat (length arr)) arrays acc
  = acc + Z.of_nat (length (List.concat arrays)).
Proof.
  revert acc; induction arrays as [|arr rest IH]; intros acc; simpl.
  - lia.
  - rewrite IH, length_app. lia.
Qed.

Lemma typed_set_fill (p arr : list Z) (t : nat) :
  typed_set (p ++ repeat 0 (length arr + t)) arr (Z.of_nat (length p))
  = Ok (p ++ arr ++ repeat 0 t).
Proof.
  unfold typed_set.
  rewrite length_app, repeat_length.
  replace ((Z.of_nat (length p) <? 0) || _) with false by
    (symmetry; apply orb_false_iff; split; apply Z.ltb_ge; lia).
  rewrite Nat2Z.id.
  rewrite firstn_app, firstn_all, Nat.sub_diag, firstn_O, app_nil_r.
  rewrite skipn_app, skipn_all2 by lia.
  replace (length p + length arr - length p)%nat with (length arr) by lia.
  rewrite repeat_app, skipn_app, skipn_all2 by (rewrite repeat_length; lia).
  rewrite repeat_length, Nat.sub_diag, skipn_O. reflexivity.
Qed.

Lemma concat_loop_fill (arrays : list (list Z)) (p : list Z) :
  concat_loop arrays (p ++ repeat 0 (length (List.concat arrays))) (Z.of_nat (length p))
  = Ok (p ++ List.concat arrays).
Proof.
  revert p; induction arrays as [|arr rest IH]; intros p; simpl.
  - rewrite app_nil_r. reflexivity.
  - rewrite length_app, typed_set_fill. simpl.
    replace (Z.of_nat (length p) + Z.of_nat (length arr))
      with (Z.of_nat (length (p ++ arr))) by (rewrite length_app; lia).
    specialize (IH (p ++ arr)). rewrite <- !app_assoc in IH. exact IH.
Qed.

(** [concat] is list concatenation. *)
Lemma concat_spec (arrays : list (list Z)) : concat arrays = Ok (List.concat arrays).
Proof.
  unfold concat. rewrite fold_length_sum, Z.add_0_l, Nat2Z.id.
  apply (concat_loop_fill arrays []).
Qed.

Lemma check_signature_length_ok alg n u :
  check_signature_length alg n = Ok u ->
  (alg = Some Ed25519 -> n = 64) /\ (alg = Some P256 -> 64 <= n <= 74).
Proof.
  destruct alg as [[|]|]; simpl.
  - destruct (n =? 64) eqn:E; simpl; intros H; [|discriminate].
    apply Z.eqb_eq in E. split; congruence.
  - destruct ((n <? 64) || (74 <? n)) eqn:E; intros H; [discriminate|].
    apply orb_false_iff in E as [E1 E2].
    apply Z.ltb_ge in E1, E2. split; intros; [discriminate | lia].
  - intros _. split; discriminate.
Qed.

(** Unfold one step of a successful computation in hypothesis [H]. *)
Ltac exn_step H :=
  match type of H with
  | bind ?m _ = Ok _ =>
      let a := fresh "a" in let Hm := fresh "Hm" in let Hk := fresh "Hk" in
      apply bind_ok in H; destruct H as [a [Hm Hk]]; cbn beta iota in Hk;
      try (destruct a); rename Hk into H
  | (if ?b then _ else _) = Ok _ =>
      let Eb := fresh "Eb" in destruct b eqn:Eb; [discriminate|]
  end.

(* ------------------------------------------------------------------ *)
(** ** Envelope layout and signature-length enforcement *)

(** The bytes [encodeWebAuthnVarsig] returns (shared by the proofs below). *)
Lemma encodeWebAuthnVarsig_layout (assertion : WebAuthnAssertion) (algorithm : SignatureAlgorithm) :
  encodeWebAuthnVarsig assertion algorithm
  = Ok (varintEncode (ALGORITHM_TO_MULTICODEC algorithm)
        ++ varintEncode (Z.of_nat (length (authenticatorData assertion)))
        ++ authenticatorData assertion
        ++ varintEncode (Z.of_nat (length (clientDataJSON assertion)))
        ++ clientDataJSON assertion
        ++ signature assertion).
Proof.
  unfold encodeWebAuthnVarsig. rewrite concat_spec. simpl.
  rewrite app_nil_r. reflexivity.
Qed.

(** C8: the envelope is exactly
    [varint(tag) || varint(len authData) || authData || varint(len clientData)
     || clientData || signature], for every algorithm and every three byte
    strings; the signature comes last and carries no length prefix. *)
Theorem encode_layout (assertion : WebAuthnAssertion) (algorithm : SignatureAlgorithm) :
  encodeWebAuthnVarsig assertion algorithm
  = Ok (varintEncode (ALGORITHM_TO_MULTICODEC algorithm)
        ++ varintEncode (Z.of_nat (length (authenticatorData assertion)))
        ++ authenticatorData assertion
        ++ varintEncode (Z.of_nat (length (clientDataJSON assertion)))
        ++ clientDataJSON assertion
        ++ signature assertion).
Proof.
  unfold encodeWebAuthnVarsig. rewrite concat_spec. simpl.
  rewrite app_nil_r. reflexivity.
Qed.

(** The decoder's result on its success path (used by several proofs). *)
Lemma decode_ok_inv (v : list Z) (r : DecodedVarsig) :
  decodeWebAuthnVarsig v = Ok r ->
  (dec_algorithm r = Some Ed25519 \/ dec_algorithm r = Some P256) /\
  check_signature_length (dec_algorithm r) (Z.of_nat (length (dec_signature r))) = Ok tt.
Proof.
  unfold decodeWebAuthnVarsig. intros H.
  repeat exn_step H.
  injection H as <-. simpl. split;
    [| match goal with Hc : check_signature_length _ _ = Ok tt |- _ =>
         rewrite ?Z.add_0_l in Hc; exact Hc end].
  apply andb_false_iff in Eb as [Eb|Eb]; apply negb_false_iff, Z.eqb_eq in Eb;
    subst; [left|right]; reflexivity.
Qed.


(** C4: a decoded envelope always satisfies the signature-length invariant
    of its tag (exactly 64 bytes for Ed25519, 64 to 74 bytes for P-256);
    an Ed25519 envelope with a 63- or 65-byte remainder and a P-256
    envelope with a 200-byte remainder fail with the signature-length
    error. *)
Theorem decode_signature_length_enforced :
  (forall (v : list Z) (r : DecodedVarsig),
      decodeWebAuthnVarsig v = Ok r ->
      (dec_algorithm r = Some Ed25519 -> length (dec_signature r) = 64%nat) /\
      (dec_algorithm r = Some P256 ->
         64 <= Z.of_nat (length (dec_signature r)) <= 74)) /\
  decodeWebAuthnVarsig (ed_envelope (repeat 7 63)) = Throw (InvalidSignatureLength Ed25519 63) /\
  decodeWebAuthnVarsig (ed_envelope (repeat 7 65)) = Throw (InvalidSignatureLength Ed25519 65) /\
  decodeWebAuthnVarsig (p256_envelope (repeat 7 200)) = Throw (InvalidSignatureLength P256 200).
Proof.
  split; [|repeat split; vm_compute; reflexivity].
  intros v r H. apply decode_ok_inv in H as [_ H].
  apply check_signature_length_ok in H as [H1 H2]. split; [|exact H2].
  intros E. specialize (H1 E). lia.
Qed.

(* ------------------------------------------------------------------ *)
(** ** Reading varints and slicing *)

Lemma reads_from_nonneg (bytes : list Z) (offset : Z) :
  0 <= offset -> reads_from bytes offset = map Some (skipn (Z.to_nat offset) bytes).
Proof.
  intros H. unfold reads_from. destruct (offset <? 0) eqn:E; [lia|reflexivity].
Qed.

(** At a negative offset the first read is [undefined], which ends the
    varint at once with value 0. *)
Lemma varintDecode_neg (bytes : list Z) (offset : Z) :
  offset < 0 -> varintDecode bytes offset = Ok (0, 1).
Proof.
  intros H. unfold varintDecode, reads_from.
  destruct (offset <? 0) eqn:E; [|lia].
  replace (Z.to_nat (- offset)) with (S (Z.to_nat (- offset - 1))) by lia.
  reflexivity.
Qed.

Lemma varintDecode_loop_app (rs rs' : list (option Z)) v s r x :
  varintDecode_loop rs v s r = Ok x -> varintDecode_loop (rs ++ rs') v s r = Ok x.
Proof.
  revert v s r; induction rs as [|b rs IH]; intros v s r; simpl; [discriminate|].
  destruct (read_and b 128 =? 0); [tauto|].
  destruct (53 <? s + 7); [discriminate|]. apply IH.
Qed.

(** A varint that ends within [l] is read the same way from [l ++ rest]. *)
Lemma varintDecode_app (l rest : list Z) x :
  varintDecode l 0 = Ok x -> varintDecode (l ++ rest) 0 = Ok x.
Proof.
  unfold varintDecode. rewrite !reads_from_nonneg by lia. simpl.
  rewrite map_app. apply varintDecode_loop_app.
Qed.

Lemma varintDecode_skip (pre l : list Z) (offset : Z) :
  offset = Z.of_nat (length pre) ->
  varintDecode (pre ++ l) offset = varintDecode l 0.
Proof.
  intros ->. unfold varintDecode. rewrite !reads_from_nonneg by lia.
  rewrite Nat2Z.id, skipn_app, skipn_all, Nat.sub_diag. reflexivity.
Qed.

Lemma rel_index_range (len i : Z) : 0 <= len -> 0 <= rel_index len i <= len.
Proof. unfold rel_index; destruct (i <? 0) eqn:E; lia. Qed.

Lemma slice_length (l : list Z) (start end_ : Z) :
  Z.of_nat (length (slice l start end_))
  = Z.max 0 (rel_index (Z.of_nat (length l)) end_ - rel_index (Z.of_nat (length l)) start).
Proof.
  unfold slice. rewrite length_firstn, length_skipn.
  pose proof (rel_index_range (Z.of_nat (length l)) start ltac:(lia)).
  pose proof (rel_index_range (Z.of_nat (length l)) end_ ltac:(lia)).
  lia.
Qed.

(* ------------------------------------------------------------------ *)
(** ** 32-bit accumulation in varintDecode *)

(** C1 (code_bug): [varintEncode 300 = [0xAC; 0x02]] and
    [varintDecode [0xAC; 0x02] 0 = (300, 2)], but the round trip breaks at
    [n = 2^31]: [varintDecode] accumulates with the 32-bit signed [<<] and
    [|], so the five-byte encoding of [2^31] decodes to [-2^31]. *)
Theorem varint_roundtrip_at_2_31 :
  varintEncode 300 = [172; 2] /\
  varintDecode [172; 2] 0 = Ok (300, 2) /\
  varintEncode (2 ^ 31) = [128; 128; 128; 128; 8] /\
  varintDecode (varintEncode (2 ^ 31)) 0 = Ok (- 2 ^ 31, 5).
Proof. repeat split; reflexivity. Qed.
(** C3 (code_bug): the envelope round trip fails for an Ed25519 assertion
    whose authenticatorData is [2^31] bytes long (empty clientData, 64-byte
    signature): the authData length prefix decodes to [-2^31] (the defect of
    C1), the decoder's offsets go negative, and decoding ends with an
    invalid-signature-length error for a "signature" of [2^31 - 8] bytes. *)
Theorem decode_encode_large_authData (a : list Z) (Hlen : Z.of_nat (length a) = 2 ^ 31) :
  (e <- encodeWebAuthnVarsig (mkAssertion a [] (repeat 0 64)) Ed25519 ;;
   decodeWebAuthnVarsig e)
  = Throw (InvalidSignatureLength Ed25519 (2 ^ 31 - 8)).
Proof.
  rewrite encodeWebAuthnVarsig_layout. cbn [bind authenticatorData clientDataJSON signature].
  rewrite Hlen.
  change (varintEncode (ALGORITHM_TO_MULTICODEC Ed25519)) with [209; 93].
  change (varintEncode (Z.of_nat (length (@nil Z)))) with [0].
  replace (varintEncode (2 ^ 31)) with [128; 128; 128; 128; 8] by reflexivity.
  set (v := [209; 93] ++ [128; 128; 128; 128; 8] ++ a ++ [0] ++ [] ++ repeat 0 64).
  assert (Hv : Z.of_nat (length v) = 2 ^ 31 + 72).
  { subst v. rewrite !length_app, repeat_length. simpl length. lia. }
  unfold decodeWebAuthnVarsig. rewrite Hv.
  assert (H1 : varintDecode v 0 = Ok (11985, 2)).
  { apply varintDecode_app. reflexivity. }
  rewrite H1. cbn [bind].
  change (negb (11985 =? WEBAUTHN_ED25519) && negb (11985 =? WEBAUTHN_P256)) with false.
  cbv iota.
  assert (H2 : varintDecode v (0 + 2) = Ok (- 2 ^ 31, 5)).
  { subst v. rewrite (varintDecode_skip [209; 93]) by reflexivity.
    apply varintDecode_app. reflexivity. }
  rewrite H2. cbn [bind].
  replace (2 ^ 31 + 72 <? 0 + 2 + 5 + - 2 ^ 31) with false by reflexivity.
  cbv iota.
  rewrite varintDecode_neg by lia. cbn [bind].
  replace (2 ^ 31 + 72 <? 0 + 2 + 5 + - 2 ^ 31 + 1 + 0) with false by reflexivity.
  cbv iota.
  unfold slice_from. rewrite slice_length, Hv.
  replace (Z.max 0 (rel_index (2 ^ 31 + 72) (2 ^ 31 + 72)
                    - rel_index (2 ^ 31 + 72) (0 + 2 + 5 + - 2 ^ 31 + 1 + 0)))
    with (2 ^ 31 - 8) by reflexivity.
  reflexivity.
Qed.

Lemma decode_encode_large_authData_witness :
  Z.of_nat (length (repeat 0 (Z.to_nat (2 ^ 31)))) = 2 ^ 31 /\
  (e <- encodeWebAuthnVarsig (mkAssertion (repeat 0 (Z.to_nat (2 ^ 31))) [] (repeat 0 64)) Ed25519 ;;
   decodeWebAuthnVarsig e)
  = Throw (InvalidSignatureLength Ed25519 (2 ^ 31 - 8)).
Proof.
  assert (H : Z.of_nat (length (repeat 0 (Z.to_nat (2 ^ 31)))) = 2 ^ 31)
    by (rewrite repeat_length; lia).
  split; [exact H | apply decode_encode_large_authData; exact H].
Defined.

(* ------------------------------------------------------------------ *)
(** ** Decoding a prefix of an envelope *)

(** The successful path of [decodeWebAuthnVarsig], step by step. *)
Lemma decode_ok_shape (v : list Z) (r : DecodedVarsig) :
  decodeWebAuthnVarsig v = Ok r ->
  exists m l1 la l2 lc l3,
    varintDecode v 0 = Ok (m, l1) /\
    (m = WEBAUTHN_ED25519 \/ m = WEBAUTHN_P256) /\
    varintDecode v l1 = Ok (la, l2) /\
    l1 + l2 + la <= Z.of_nat (length v) /\
    varintDecode v (l1 + l2 + la) = Ok (lc, l3) /\
    l1 + l2 + la + l3 + lc <= Z.of_nat (length v) /\
    check_signature_length (getAlgorithm m)
      (Z.of_nat (length (slice_from v (l1 + l2 + la + l3 + lc)))) = Ok tt /\
    r = mkDecoded m (getAlgorithm m)
          (slice v (l1 + l2) (l1 + l2 + la))
          (slice v (l1 + l2 + la + l3) (l1 + l2 + la + l3 + lc))
          (slice_from v (l1 + l2 + la + l3 + lc)).
Proof.
  unfold decodeWebAuthnVarsig. intros H.
  destruct (varintDecode v 0) as [[m l1]|e] eqn:E1; [|discriminate]. cbn [bind] in H.
  destruct (negb (m =? WEBAUTHN_ED25519) && negb (m =? WEBAUTHN_P256)) eqn:E2;
    [discriminate|].
  rewrite Z.add_0_l in H.
  destruct (varintDecode v l1) as [[la l2]|e] eqn:E3; [|discriminate]. cbn [bind] in H.
  destruct (Z.of_nat (length v) <? l1 + l2 + la) eqn:E4; [discriminate|].
  destruct (varintDecode v (l1 + l2 + la)) as [[lc l3]|e] eqn:E5; [|discriminate].
  cbn [bind] in H.
  destruct (Z.of_nat (length v) <? l1 + l2 + la + l3 + lc) eqn:E6; [discriminate|].
  destruct (check_signature_length _ _) as [[]|e] eqn:E7; [|discriminate].
  cbn [bind] in H. injection H as <-.
  exists m, l1, la, l2, lc, l3.
  apply Z.ltb_ge in E4, E6.
  repeat split; auto.
  apply andb_false_iff in E2 as [E2|E2]; apply negb_false_iff, Z.eqb_eq in E2; auto.
Qed.

Lemma varintDecode_loop_count rs v s r x n :
  varintDecode_loop rs v s r = Ok (x, n) -> r + 1 <= n.
Proof.
  revert v s r; induction rs as [|b rs IH]; intros v s r; simpl; [discriminate|].
  destruct (read_and b 128 =? 0).
  - intros H; injection H as _ <-. lia.
  - destruct (53 <? s + 7); [discriminate|]. intros H. apply IH in H. lia.
Qed.

Lemma varintDecode_count bytes offset x n :
  varintDecode bytes offset = Ok (x, n) -> 1 <= n.
Proof. apply varintDecode_loop_count. Qed.

Lemma varintDecode_loop_firstn rs j v s r x y :
  varintDecode_loop rs v s r = Ok x ->
  varintDecode_loop (firstn j rs) v s r = Ok y -> y = x.
Proof.
  revert j v s r; induction rs as [|b rs IH]; intros j v s r; simpl; [discriminate|].
  destruct j as [|j]; simpl; [discriminate|].
  destruct (read_and b 128 =? 0); [congruence|].
  destruct (53 <? s + 7); [discriminate|]. apply IH.
Qed.

(** A varint read from a prefix of [v], at a non-negative offset, is the one
    read from [v]. *)
Lemma varintDecode_firstn (v : list Z) (k : nat) (offset : Z) x y :
  0 <= offset ->
  varintDecode v offset = Ok x -> varintDecode (firstn k v) offset = Ok y -> y = x.
Proof.
  intros Ho. unfold varintDecode. rewrite !reads_from_nonneg by exact Ho.
  rewrite skipn_firstn_comm, <- firstn_map.
  intros H1 H2. exact (varintDecode_loop_firstn _ _ _ _ _ _ _ H1 H2).
Qed.

Lemma rel_index_in (len i : Z) : 0 <= i <= len -> rel_index len i = i.
Proof. unfold rel_index; destruct (i <? 0) eqn:E; lia. Qed.

Lemma slice_firstn (v : list Z) (k : nat) (s e : Z) :
  (k <= length v)%nat -> 0 <= s <= e -> e <= Z.of_nat k ->
  slice (firstn k v) s e = slice v s e.
Proof.
  intros Hk Hs He. unfold slice. rewrite length_firstn.
  replace (Nat.min k (length v)) with k by lia.
  rewrite !(rel_index_in _ s), !(rel_index_in _ e) by lia.
  rewrite skipn_firstn_comm, firstn_firstn. f_equal. lia.
Qed.

Lemma slice_from_firstn (v : list Z) (k : nat) (o : Z) :
  (k <= length v)%nat -> 0 <= o <= Z.of_nat k ->
  slice_from (firstn k v) o = firstn (k - Z.to_nat o) (slice_from v o).
Proof.
  intros Hk Ho. unfold slice_from, slice. rewrite length_firstn.
  replace (Nat.min k (length v)) with k by lia.
  rewrite (rel_index_in (Z.of_nat k) o), (rel_index_in (Z.of_nat k) (Z.of_nat k)),
    (rel_index_in (Z.of_nat (length v)) o),
    (rel_index_in (Z.of_nat (length v)) (Z.of_nat (length v))) by lia.
  rewrite skipn_firstn_comm, firstn_firstn.
  rewrite (firstn_all2 (n := Z.to_nat (Z.of_nat (length v) - o))) by (rewrite length_skipn; lia).
  f_equal. lia.
Qed.

Lemma slice_from_length (v : list Z) (o : Z) :
  0 <= o <= Z.of_nat (length v) ->
  Z.of_nat (length (slice_from v o)) = Z.of_nat (length v) - o.
Proof.
  intros Ho. unfold slice_from. rewrite slice_length.
  rewrite !rel_index_in by lia. lia.
Qed.

(** C2, counterexample: a P-256 envelope with a 70-byte signature decodes,
    and so does its strict prefix one byte shorter (its signature is 69
    bytes, still within 64..74). *)
Lemma decode_truncated_p256_succeeds :
  decodeWebAuthnVarsig (p256_envelope (repeat 7 70))
  = Ok (mkDecoded 8790 (Some P256) sample_authData sample_clientData (repeat 7 70)) /\
  decodeWebAuthnVarsig
    (firstn (length (p256_envelope (repeat 7 70)) - 1) (p256_envelope (repeat 7 70)))
  = Ok (mkDecoded 8790 (Some P256) sample_authData sample_clientData (repeat 7 69)).
Proof. split; vm_compute; reflexivity. Qed.

(** C2 (amended): let [v] be an envelope that decodes to [r] and whose
    length prefixes decode to non-negative numbers.  A strict prefix of [v]
    never decodes when [r] is an Ed25519 envelope; when it decodes at all,
    [r] is a P-256 envelope and the prefix decodes to the same tag,
    authenticatorData and clientDataJSON with a signature that is a strictly
    shorter prefix of [r]'s signature, still at least 64 bytes long. *)
Theorem decode_strict_prefix (v : list Z) (r : DecodedVarsig) (k : nat) (r' : DecodedVarsig) :
  decodeWebAuthnVarsig v = Ok r ->
  decoded_length_prefixes_nonneg v ->
  (k < length v)%nat ->
  decodeWebAuthnVarsig (firstn k v) = Ok r' ->
  dec_algorithm r = Some P256 /\
  dec_multicodec r' = dec_multicodec r /\
  dec_algorithm r' = dec_algorithm r /\
  dec_authenticatorData r' = dec_authenticatorData r /\
  dec_clientDataJSON r' = dec_clientDataJSON r /\
  dec_signature r' = firstn (length (dec_signature r')) (dec_signature r) /\
  (64 <= length (dec_signature r'))%nat /\
  (length (dec_signature r') < length (dec_signature r))%nat.
Proof.
  intros Hv Hnn Hk Hp.
  apply decode_ok_shape in Hv as (m & l1 & la & l2 & lc & l3 & V1 & Vm & V2 & V3 & V4 & V5 & V6 & ->).
  apply decode_ok_shape in Hp as (m' & l1' & la' & l2' & lc' & l3' & P1 & Pm & P2 & P3 & P4 & P5 & P6 & ->).
  pose proof (varintDecode_count _ _ _ _ V1) as C1.
  pose proof (varintDecode_count _ _ _ _ V2) as C2.
  pose proof (varintDecode_count _ _ _ _ V4) as C3.
  destruct (Hnn _ _ _ _ V1 V2) as [Hla Hlc]. specialize (Hlc _ _ V4).
  pose proof (varintDecode_firstn v k 0 _ _ ltac:(lia) V1 P1) as E. injection E as -> ->.
  pose proof (varintDecode_firstn v k l1 _ _ ltac:(lia) V2 P2) as E. injection E as -> ->.
  pose proof (varintDecode_firstn v k (l1 + l2 + la) _ _ ltac:(lia) V4 P4) as E.
  injection E as -> ->.
  rewrite length_firstn in P3, P5.
  replace (Nat.min k (length v)) with k in P3, P5 by lia.
  set (o := l1 + l2 + la + l3 + lc) in *.
  assert (Hsig : slice_from (firstn k v) o = firstn (k - Z.to_nat o) (slice_from v o))
    by (apply slice_from_firstn; lia).
  assert (Lv : Z.of_nat (length (slice_from v o)) = Z.of_nat (length v) - o)
    by (apply slice_from_length; lia).
  assert (Lp : Z.of_nat (length (slice_from (firstn k v) o)) = Z.of_nat k - o).
  { rewrite slice_from_length; rewrite length_firstn; lia. }
  cbn [dec_algorithm dec_multicodec dec_authenticatorData dec_clientDataJSON dec_signature].
  apply check_signature_length_ok in V6 as [V6e V6p].
  apply check_signature_length_ok in P6 as [P6e P6p].
  destruct Vm as [-> | ->].
  - specialize (V6e eq_refl). specialize (P6e eq_refl). lia.
  - specialize (P6p eq_refl).
    split; [reflexivity|]. split; [reflexivity|]. split; [reflexivity|].
    split; [apply slice_firstn; lia|]. split; [apply slice_firstn; lia|].
    split; [|lia].
    rewrite Hsig, length_firstn. f_equal. lia.
Qed.

Lemma decode_strict_prefix_witness :
  dec_algorithm (mkDecoded 8790 (Some P256) sample_authData sample_clientData (repeat 7 70))
    = Some P256 /\
  (64 <= length (dec_signature
                   (mkDecoded 8790 (Some P256) sample_authData sample_clientData (repeat 7%Z 69))))%nat.
Proof.
  destruct decode_truncated_p256_succeeds as [H1 H2].
  assert (Hnn : decoded_length_prefixes_nonneg (p256_envelope (repeat 7 70))).
  { intros m l1 la l2 E1 E2. vm_compute in E1. injection E1 as <- <-.
    vm_compute in E2. injection E2 as <- <-. split; [lia|].
    intros lc l3 E3. vm_compute in E3. injection E3 as <- <-. lia. }
  assert (Hk : Nat.lt (length (p256_envelope (repeat 7 70)) - 1)
                      (length (p256_envelope (repeat 7 70))))
    by (apply Nat.ltb_lt; reflexivity).
  destruct (decode_strict_prefix _ _ _ _ H1 Hnn Hk H2)
    as (A & _ & _ & _ & _ & _ & B & _).
  split; [exact A | exact B].
Defined.

Example b64_sample :
  bytesToBase64url [1; 2; 3; 4; 5; 255; 254] = Ok (js_str "AQIDBAX__g") /\
  base64urlToBytes (js_str "AQIDBAX__g") = Ok [1; 2; 3; 4; 5; 255; 254].
Proof. split; reflexivity. Qed.

(* ------------------------------------------------------------------ *)
(** ** The structural verifier *)

Section VerifierProofs.

Variable JSON_parse : list Z -> Exn json.

(** The path of [verify_body] once the type, origin and challenge checks
    have passed. *)
Lemma verify_body_checks_passed decoded options cd ch :
  parseClientDataJSON JSON_parse (dec_clientDataJSON decoded) = Ok cd ->
  js_str_eq (cd_type cd) (js_str "webauthn.get") = true ->
  js_str_eq (cd_origin cd) (expectedOrigin options) = true ->
  challenge_bytes (cd_challenge cd) = Ok ch ->
  bytesEqual ch (expectedChallenge options) = true ->
  verify_body JSON_parse decoded options =
    (let authData := dec_authenticatorData decoded in
     if Z.of_nat (length authData) <? 37 then
       Ok (failure (ErrAuthDataLength (Z.of_nat (length authData))))
     else
       let flagsByte := nth 32 authData 0 in
       let up := negb (Z.land flagsByte 1 =? 0) in
       let uv := negb (Z.land flagsByte 4 =? 0) in
       let be := negb (Z.land flagsByte 8 =? 0) in
       let bs := negb (Z.land flagsByte 16 =? 0) in
       if negb up then Ok (failure ErrUserNotPresent)
       else if negb (match requireUserVerification options with
                     | Some false => true | _ => false end) && negb uv
       then Ok (failure ErrUserNotVerified)
       else Ok (mkResult true None (Some cd) (Some (mkFlags up uv be bs)))).
Proof.
  intros Hp Ht Ho Hc Hb. unfold verify_body.
  rewrite Hp. cbn [bind]. rewrite Ht, Ho. cbn [negb].
  rewrite Hc. cbn [bind]. rewrite Hb. reflexivity.
Qed.

(** C5 (amended): when the client data passes the type, origin and
    challenge checks, and the authenticatorData is at least 37 bytes long
    with flags byte (offset 32) 0x01, the verifier returns a valid result
    (with the parsed client data and the flags UP only) when
    [requireUserVerification] is [false], and the user-verification failure
    when it is [true] or omitted; when the authenticatorData is shorter than
    37 bytes, it returns the authenticatorData-length failure whatever the
    option. *)
Theorem verify_user_verification_gate decoded (origin challenge : list Z) cd ch :
  parseClientDataJSON JSON_parse (dec_clientDataJSON decoded) = Ok cd ->
  js_str_eq (cd_type cd) (js_str "webauthn.get") = true ->
  js_str_eq (cd_origin cd) origin = true ->
  challenge_bytes (cd_challenge cd) = Ok ch ->
  bytesEqual ch challenge = true ->
  ((37 <= length (dec_authenticatorData decoded))%nat ->
   nth 32 (dec_authenticatorData decoded) 0 = 1 ->
   verifyWebAuthnAssertion JSON_parse decoded (mkOptions origin challenge (Some false))
     = Ok (mkResult true None (Some cd) (Some (mkFlags true false false false))) /\
   verifyWebAuthnAssertion JSON_parse decoded (mkOptions origin challenge (Some true))
     = Ok (failure ErrUserNotVerified) /\
   verifyWebAuthnAssertion JSON_parse decoded (mkOptions origin challenge None)
     = Ok (failure ErrUserNotVerified)) /\
  ((length (dec_authenticatorData decoded) < 37)%nat ->
   forall requireUV,
   verifyWebAuthnAssertion JSON_parse decoded (mkOptions origin challenge requireUV)
     = Ok (failure (ErrAuthDataLength (Z.of_nat (length (dec_authenticatorData decoded)))))).
Proof.
  intros Hp Ht Ho Hc Hb. unfold verifyWebAuthnAssertion. split.
  - intros Hl Hf.
    repeat split;
      (erewrite (verify_body_checks_passed decoded (mkOptions origin challenge _) cd ch Hp Ht Ho Hc Hb); cbv zeta;
       replace (Z.of_nat (length (dec_authenticatorData decoded)) <? 37) with false
         by (symmetry; apply Z.ltb_ge; lia);
       rewrite Hf; reflexivity).
  - intros Hl requireUV.
    erewrite (verify_body_checks_passed decoded (mkOptions origin challenge requireUV) cd ch
                Hp Ht Ho Hc Hb); cbv zeta.
    replace (Z.of_nat (length (dec_authenticatorData decoded)) <? 37) with true
      by (symmetry; apply Z.ltb_lt; lia).
    reflexivity.
Qed.

(** C6 (amended): when the parsed client data declares an origin other
    than the expected one, the verifier returns an invalid result, whatever
    the signature; when moreover the ceremony type is [webauthn.get] and the
    origin is a string [o], that result carries the origin-mismatch error
    for [o].  A wrong ceremony type is checked first: the result then
    carries the ceremony-type error with the type as a string [t], or
    'Verification failed' with the error [e] thrown while converting the
    type to a string. *)
Theorem verify_origin_mismatch decoded options cd :
  parseClientDataJSON JSON_parse (dec_clientDataJSON decoded) = Ok cd ->
  js_str_eq (cd_origin cd) (expectedOrigin options) = false ->
  (exists r, verifyWebAuthnAssertion JSON_parse decoded options = Ok r /\ valid r = false) /\
  (forall o, js_str_eq (cd_type cd) (js_str "webauthn.get") = true ->
     cd_origin cd = Some (JStr o) ->
     verifyWebAuthnAssertion JSON_parse decoded options
       = Ok (failure (ErrOriginMismatch (expectedOrigin options) o))) /\
  (js_str_eq (cd_type cd) (js_str "webauthn.get") = false ->
   (forall t, template_string (cd_type cd) = Ok t ->
      verifyWebAuthnAssertion JSON_parse decoded options = Ok (failure (ErrCeremonyType t))) /\
   (forall e, template_string (cd_type cd) = Throw e ->
      verifyWebAuthnAssertion JSON_parse decoded options
        = Ok (failure (ErrVerificationFailed e)))).
Proof.
  intros Hp Ho. unfold verifyWebAuthnAssertion, verify_body.
  rewrite Hp. cbn [bind]. rewrite Ho. cbn [negb].
  split; [|split].
  3:{ intros Ht. rewrite Ht. cbn [negb].
      split; [intros t Hs | intros e Hs]; rewrite Hs; reflexivity. }
  - destruct (js_str_eq (cd_type cd) (js_str "webauthn.get")); cbn [negb].
    + destruct (template_string (cd_origin cd)); cbn [bind js_try]; eauto.
    + destruct (template_string (cd_type cd)); cbn [bind js_try]; eauto.
  - intros o Ht Hs. rewrite Ht. cbn [negb]. rewrite Hs. reflexivity.
Qed.

(** C7 (amended): the verifier never throws.  Every outcome is returned:
    either a failure [{valid: false, error}] without client data or flags
    (for the business checks and also for malformed input such as
    unparseable clientDataJSON, reported as 'Verification failed: ..'), or
    [{valid: true}] with the parsed client data and the flags read from
    byte 32 of the authenticatorData. *)
Theorem verify_never_throws :
  (forall decoded options,
     exists r, verifyWebAuthnAssertion JSON_parse decoded options = Ok r /\
       ((valid r = false /\ exists e, r = failure e) \/
        (valid r = true /\
         exists cd, parseClientDataJSON JSON_parse (dec_clientDataJSON decoded) = Ok cd /\
           r = mkResult true None (Some cd)
                 (Some (mkFlags
                    (negb (Z.land (nth 32 (dec_authenticatorData decoded) 0) 1 =? 0))
                    (negb (Z.land (nth 32 (dec_authenticatorData decoded) 0) 4 =? 0))
                    (negb (Z.land (nth 32 (dec_authenticatorData decoded) 0) 8 =? 0))
                    (negb (Z.land (nth 32 (dec_authenticatorData decoded) 0) 16 =? 0))))))) /\
  (forall decoded options e,
     JSON_parse (dec_clientDataJSON decoded) = Throw e ->
     verifyWebAuthnAssertion JSON_parse decoded options
       = Ok (failure (ErrVerificationFailed (ClientDataParseError e)))).
Proof.
  split.
  - intros decoded options. unfold verifyWebAuthnAssertion.
    destruct (verify_body JSON_parse decoded options) as [r|e] eqn:E; cbn [js_try].
    + exists r. split; [reflexivity|].
      unfold verify_body in E. cbv zeta in E.
      repeat match type of E with
      | bind ?m _ = Ok _ =>
          let Hm := fresh "Hm" in destruct m eqn:Hm; cbn [bind] in E; [|discriminate]
      | (if ?b then _ else _) = Ok _ => destruct b
      | Ok _ = Ok _ => injection E as <-
      end;
      first [ left; split; [reflexivity | eexists; reflexivity]
            | right; split; [reflexivity | eexists; split; reflexivity] ].
    + eexists. split; [reflexivity|]. left. split; [reflexivity | eexists; reflexivity].
  - intros decoded options e H.
    unfold verifyWebAuthnAssertion, verify_body, parseClientDataJSON.
    rewrite H. reflexivity.
Qed.

End VerifierProofs.

(** C5 counterexample: with a 33-byte authenticatorData whose byte 32 is
    0x01 and [requireUserVerification = false], the type, origin and
    challenge checks pass but the result is the length failure, not a
    valid result. *)
Lemma verify_uv_false_short_authData :
  verifyWebAuthnAssertion (sample_parse "webauthn.get" "https://example.com")
    (sample_decoded (repeat 0 32 ++ [1])) (sample_options (Some false))
  = Ok (failure (ErrAuthDataLength 33)).
Proof. vm_compute. reflexivity. Qed.

Lemma verify_user_verification_gate_witness :
  verifyWebAuthnAssertion (sample_parse "webauthn.get" "https://example.com")
    (sample_decoded up_only_authData) (sample_options (Some false))
  = Ok (mkResult true None
          (Some (sample_client_record "webauthn.get" "https://example.com"))
          (Some (mkFlags true false false false))) /\
  verifyWebAuthnAssertion (sample_parse "webauthn.get" "https://example.com")
    (sample_decoded up_only_authData) (sample_options None)
  = Ok (failure ErrUserNotVerified) /\
  verifyWebAuthnAssertion (sample_parse "webauthn.get" "https://example.com")
    (sample_decoded (repeat 0 32 ++ [1])) (sample_options (Some false))
  = Ok (failure (ErrAuthDataLength 33)).
Proof.
  assert (Hl : (37 <= length (dec_authenticatorData (sample_decoded up_only_authData)))%nat)
    by (apply Nat.leb_le; reflexivity).
  assert (Hs : (length (dec_authenticatorData (sample_decoded (repeat 0%Z 32 ++ [1%Z]))) < 37)%nat)
    by (apply Nat.ltb_lt; reflexivity).
  pose proof (proj2 (verify_user_verification_gate
              (sample_parse "webauthn.get" "https://example.com")
              (sample_decoded (repeat 0 32 ++ [1])) (js_str "https://example.com") [1; 2; 3]
              (sample_client_record "webauthn.get" "https://example.com") [1; 2; 3]
              ltac:(vm_compute; reflexivity) ltac:(vm_compute; reflexivity)
              ltac:(vm_compute; reflexivity) ltac:(vm_compute; reflexivity)
              ltac:(vm_compute; reflexivity)) Hs (Some false)) as H4.
  destruct (proj1 (verify_user_verification_gate
              (sample_parse "webauthn.get" "https://example.com")
              (sample_decoded up_only_authData) (js_str "https://example.com") [1; 2; 3]
              (sample_client_record "webauthn.get" "https://example.com") [1; 2; 3]
              ltac:(vm_compute; reflexivity) ltac:(vm_compute; reflexivity)
              ltac:(vm_compute; reflexivity) ltac:(vm_compute; reflexivity)
              ltac:(vm_compute; reflexivity)) Hl ltac:(vm_compute; reflexivity))
    as [H1 [_ H3]].
  split; [exact H1 | split; [exact H3 | exact H4]].
Defined.

(** C6 counterexample: client data of a registration ceremony
    ([webauthn.create]) declaring origin [https://evil.com] is rejected for
    its ceremony type, not with an origin-mismatch error. *)
Lemma verify_create_evil_origin :
  verifyWebAuthnAssertion (sample_parse "webauthn.create" "https://evil.com")
    (sample_decoded sample_authData) (sample_options None)
  = Ok (failure (ErrCeremonyType (js_str "webauthn.create"))).
Proof. vm_compute. reflexivity. Qed.

Lemma verify_origin_mismatch_witness :
  verifyWebAuthnAssertion (sample_parse "webauthn.get" "https://evil.com")
    (sample_decoded sample_authData) (sample_options None)
  = Ok (failure (ErrOriginMismatch (js_str "https://example.com") (js_str "https://evil.com"))) /\
  verifyWebAuthnAssertion (fun _ => Ok toString_type_client)
    (sample_decoded sample_authData) (sample_options None)
  = Ok (failure (ErrVerificationFailed TypeError)).
Proof.
  split.
  2:{ destruct (verify_origin_mismatch (fun _ => Ok toString_type_client)
                  (sample_decoded sample_authData) (sample_options None)
                  (mkClientData (Some toString_type) None
                     (Some (JStr (js_str "https://evil.com"))) None)
                  ltac:(vm_compute; reflexivity) ltac:(vm_compute; reflexivity))
        as [_ [_ H]].
      exact (proj2 (H ltac:(vm_compute; reflexivity)) TypeError ltac:(vm_compute; reflexivity)). }
  destruct (verify_origin_mismatch
              (sample_parse "webauthn.get" "https://evil.com")
              (sample_decoded sample_authData) (sample_options None)
              (sample_client_record "webauthn.get" "https://evil.com")
              ltac:(vm_compute; reflexivity) ltac:(vm_compute; reflexivity))
    as [_ [H _]].
  exact (H (js_str "https://evil.com") ltac:(vm_compute; reflexivity) eq_refl).
Defined.

(** C7 counterexample: clientDataJSON that is not parseable JSON does not
    make the verifier throw; it returns the failure result
    'Verification failed: Failed to parse clientDataJSON: ..'. *)
Lemma verify_unparseable_client_data :
  verifyWebAuthnAssertion failing_parse (sample_decoded sample_authData) (sample_options None)
  = Ok (failure (ErrVerificationFailed (ClientDataParseError SyntaxError))).
Proof. reflexivity. Qed.

(* ------------------------------------------------------------------ *)
(** ** utils.ts: the base64url wrapping *)

Lemma b64_index_char (x : Z) : 0 <= x < 64 -> b64_index (b64_char x) = x.
Proof.
  intros Hx. unfold b64_char.
  destruct (Z.ltb_spec x 26); [|destruct (Z.ltb_spec x 52); [|destruct (Z.ltb_spec x 62);
    [|destruct (Z.eqb_spec x 62)]]];
  unfold b64_index;
  repeat (match goal with
          | |- context [?a <=? ?b] => destruct (Z.leb_spec a b)
          | |- context [?a =? ?b] => destruct (Z.eqb_spec a b)
          end; cbn [andb orb]); lia.
Qed.

Lemma b64_char_valid (x : Z) : 0 <= x < 64 -> is_b64_char (b64_char x) = true.
Proof.
  intros Hx. unfold b64_char.
  destruct (Z.ltb_spec x 26); [|destruct (Z.ltb_spec x 52); [|destruct (Z.ltb_spec x 62);
    [|destruct (Z.eqb_spec x 62)]]];
  unfold is_b64_char;
  repeat (match goal with
          | |- context [?a <=? ?b] => destruct (Z.leb_spec a b)
          | |- context [?a =? ?b] => destruct (Z.eqb_spec a b)
          end; cbn [andb orb]); first [reflexivity | lia].
Qed.

(** A character of the base64 alphabet is none of [-], [_], [=] and no
    ASCII whitespace. *)
Lemma b64_char_not_special (c : Z) :
  is_b64_char c = true ->
  c <> 45 /\ c <> 95 /\ c <> 61 /\ is_ascii_whitespace c = false.
Proof.
  unfold is_b64_char, is_ascii_whitespace. intros H.
  repeat rewrite orb_true_iff in H. repeat rewrite andb_true_iff in H.
  repeat rewrite Z.leb_le in H. repeat rewrite Z.eqb_eq in H.
  assert (c <> 45 /\ c <> 95 /\ c <> 61 /\ c <> 9 /\ c <> 10 /\ c <> 12 /\ c <> 13 /\ c <> 32)
    as (H1 & H2 & H3 & H4 & H5 & H6 & H7 & H8) by lia.
  repeat split; try assumption.
  repeat rewrite (proj2 (Z.eqb_neq _ _)) by assumption. reflexivity.
Qed.

(** [btoa] of bytes is a body of alphabet characters followed by at most
    two [=], of total length a multiple of 4, and the [atob] loop maps the
    body back to the bytes. *)
Lemma b64_encode_shape (l : list Z) :
  Forall (fun x => 0 <= x < 256) l ->
  exists body p,
    b64_encode l = body ++ repeat 61 p /\ (p <= 2)%nat /\
    ((length body + p) mod 4 = 0)%nat /\
    Forall (fun c => is_b64_char c = true) body /\
    b64_decode_loop body 0 0 = l.
Proof.
  induction l as [l IH] using (induction_ltof1 _ (@length Z)); unfold ltof in IH.
  intros Hl.
  destruct l as [|a [|b [|c rest]]].
  - exists [], O. repeat split; auto.
  - inversion Hl as [|? ? Ha _]; subst.
    exists [b64_char (a / 4); b64_char (a mod 4 * 16)], 2%nat.
    split; [reflexivity|]. split; [lia|]. split; [reflexivity|]. split.
    + repeat constructor; apply b64_char_valid; Z.div_mod_to_equations; lia.
    + cbn [b64_decode_loop Nat.add Nat.eqb].
      rewrite !b64_index_char by (Z.div_mod_to_equations; lia).
      f_equal. Z.div_mod_to_equations; lia.
  - inversion Hl as [|? ? Ha Hl']; inversion Hl' as [|? ? Hb _]; subst.
    exists [b64_char (a / 4); b64_char (a mod 4 * 16 + b / 16); b64_char (b mod 16 * 4)], 1%nat.
    split; [reflexivity|]. split; [lia|]. split; [reflexivity|]. split.
    + repeat constructor; apply b64_char_valid; Z.div_mod_to_equations; lia.
    + cbn [b64_decode_loop Nat.add Nat.eqb].
      rewrite !b64_index_char by (Z.div_mod_to_equations; lia).
      assert (E : ((0 * 64 + a / 4) * 64 + (a mod 4 * 16 + b / 16)) * 64 + b mod 16 * 4
                  = a * 1024 + b * 4) by (Z.div_mod_to_equations; lia).
      rewrite E. f_equal; [|f_equal]; Z.div_mod_to_equations; lia.
  - inversion Hl as [|? ? Ha Hl']; inversion Hl' as [|? ? Hb Hl'']; inversion Hl'' as [|? ? Hc Hr];
      subst.
    destruct (IH rest ltac:(simpl; lia) Hr) as (body & p & Henc & Hp & Hlen & Hbody & Hdec).
    exists ([b64_char (a / 4); b64_char (a mod 4 * 16 + b / 16);
             b64_char (b mod 16 * 4 + c / 64); b64_char (c mod 64)] ++ body), p.
    split; [|split; [exact Hp|split; [|split]]].
    + cbn [b64_encode]. rewrite Henc. apply app_assoc.
    + rewrite length_app. cbn [length].
      replace (4 + length body + p)%nat with (1 * 4 + (length body + p))%nat by lia.
      rewrite Nat.add_comm, Nat.Div0.mod_add. exact Hlen.
    + apply Forall_app. split; [|exact Hbody].
      repeat constructor; apply b64_char_valid; Z.div_mod_to_equations; lia.
    + cbn [app b64_decode_loop Nat.add Nat.eqb]. rewrite Hdec.
      rewrite !b64_index_char by (Z.div_mod_to_equations; lia).
      assert (E : ((((0 * 64 + a / 4) * 64 + (a mod 4 * 16 + b / 16)) * 64
                    + (b mod 16 * 4 + c / 64)) * 64 + c mod 64)
                  = a * 65536 + b * 256 + c) by (Z.div_mod_to_equations; lia).
      rewrite E. cbn [app]. f_equal; [|f_equal; [|f_equal]]; Z.div_mod_to_equations; lia.
Qed.

Lemma replace_all_single (c d : Z) (s : list Z) :
  replace_all c [d] s = map (fun x => if x =? c then d else x) s.
Proof.
  induction s as [|x s IH]; [reflexivity|].
  cbn [replace_all flat_map map]. unfold replace_all in IH. rewrite IH.
  destruct (x =? c); reflexivity.
Qed.

Lemma replace_all_app (c : Z) (r s t : list Z) :
  replace_all c r (s ++ t) = replace_all c r s ++ replace_all c r t.
Proof. apply flat_map_app. Qed.

Lemma replace_all_absent (c : Z) (r s : list Z) :
  Forall (fun x => x <> c) s -> replace_all c r s = s.
Proof.
  induction 1 as [|x s Hx _ IH]; [reflexivity|].
  cbn [replace_all flat_map]. unfold replace_all in IH. rewrite IH.
  rewrite (proj2 (Z.eqb_neq _ _) Hx). reflexivity.
Qed.

Lemma replace_all_repeat (c : Z) (n : nat) : replace_all c [] (repeat c n) = [].
Proof.
  induction n as [|n IH]; [reflexivity|].
  cbn [repeat replace_all flat_map]. rewrite Z.eqb_refl. exact IH.
Qed.

(** The character swap of [bytesToBase64url]: [+] to [-], [/] to [_]. *)
Lemma b64_url_chars (c : Z) :
  is_b64_char c = true ->
  let u := (if (if c =? 43 then 45 else c) =? 47 then 95 else (if c =? 43 then 45 else c)) in
  u <> 43 /\ u <> 47 /\ u <> 61 /\ is_ascii_whitespace u = false /\
  (if (if u =? 45 then 43 else u) =? 95 then 47 else (if u =? 45 then 43 else u)) = c.
Proof.
  intros H. destruct (b64_char_not_special c H) as (H45 & H95 & H61 & _).
  unfold is_ascii_whitespace.
  destruct (Z.eqb_spec c 43) as [->|N43];
    [repeat split; first [reflexivity | discriminate]|].
  destruct (Z.eqb_spec c 47) as [->|N47];
    [repeat split; first [reflexivity | discriminate]|].
  rewrite (proj2 (Z.eqb_neq c 45)), (proj2 (Z.eqb_neq c 95)) by assumption.
  destruct (b64_char_not_special c H) as (_ & _ & _ & Hw).
  unfold is_ascii_whitespace in Hw. repeat split; assumption.
Qed.

Lemma strip_padding_body (body : list Z) (p : nat) :
  (p <= 2)%nat -> Forall (fun x => x <> 61) body ->
  strip_padding (body ++ repeat 61 p) = body.
Proof.
  intros Hp Hb. unfold strip_padding.
  rewrite rev_app_distr, rev_repeat.
  destruct p as [|[|[|p]]]; [| | |lia]; cbn [repeat app].
  - assert (Hr : Forall (fun x => x <> 61) (rev body)) by (apply Forall_rev; exact Hb).
    rewrite app_nil_r.
    destruct (rev body) as [|x r] eqn:E; [reflexivity|].
    inversion Hr as [|? ? Hx _]; subst.
    destruct x as [|x|x]; try reflexivity;
      repeat (destruct x as [x|x|]; try reflexivity; try congruence).
  - assert (Hr : Forall (fun x => x <> 61) (rev body)) by (apply Forall_rev; exact Hb).
    destruct (rev body) as [|x r] eqn:E.
    + apply (f_equal (@rev Z)) in E. rewrite rev_involutive in E. subst. reflexivity.
    + inversion Hr as [|? ? Hx _]; subst.
      destruct x as [|x|x];
        try (rewrite <- E, rev_involutive; reflexivity);
        repeat (destruct x as [x|x|]; try (rewrite <- E, rev_involutive; reflexivity);
                try congruence).
  - apply rev_involutive.
Qed.

Lemma filter_all {A} (f : A -> bool) (l : list A) :
  Forall (fun x => f x = true) l -> filter f l = l.
Proof. induction 1 as [|x l Hx _ IH]; [reflexivity|]. cbn. rewrite Hx, IH. reflexivity. Qed.

(** The padding [(4 - n % 4) % 4] restores [p] padding characters, and a
    body of length [n] is never of length 1 modulo 4. *)
Lemma pad_count (n p : nat) :
  (p <= 2)%nat -> ((n + p) mod 4 = 0)%nat ->
  ((4 - n mod 4) mod 4 = p)%nat /\ (n mod 4 <> 1)%nat.
Proof.
  intros Hp H. rewrite Nat.Div0.add_mod, (Nat.mod_small p 4) in H by lia.
  assert (Hr : (n mod 4 < 4)%nat) by (apply Nat.mod_upper_bound; lia).
  remember (n mod 4)%nat as r eqn:Er. clear Er.
  destruct r as [|[|[|[|r]]]]; [| | | |lia];
    destruct p as [|[|[|p]]]; try lia; cbn in H |- *; split; try lia.
Qed.

(** C10: for every byte string [b], [bytesToBase64url] returns a text [t]
    without [+], [/] or [=], and [base64urlToBytes t] gives [b] back. *)
Theorem base64url_roundtrip (b : list Z) :
  Forall (fun x => 0 <= x < 256) b ->
  exists t, bytesToBase64url b = Ok t /\ base64urlToBytes t = Ok b /\
            ~ In 43 t /\ ~ In 47 t /\ ~ In 61 t.
Proof.
  intros Hb.
  destruct (b64_encode_shape b Hb) as (body & p & Henc & Hp & Hlen & Hbody & Hdec).
  set (h := fun x : Z => if (if x =? 43 then 45 else x) =? 47 then 95
                         else (if x =? 43 then 45 else x)).
  assert (Hh : forall x, In x body ->
            h x <> 43 /\ h x <> 47 /\ h x <> 61 /\ is_ascii_whitespace (h x) = false /\
            (if (if h x =? 45 then 43 else h x) =? 95 then 47
             else (if h x =? 45 then 43 else h x)) = x).
  { intros x Hx. apply b64_url_chars. rewrite Forall_forall in Hbody. auto. }
  exists (map h body). split; [|split; [|split; [|split]]].
  - unfold bytesToBase64url, btoa.
    replace (forallb (fun c => (0 <=? c) && (c <=? 255)) b) with true.
    2:{ symmetry. apply forallb_forall. intros x Hx. rewrite Forall_forall in Hb.
        destruct (Hb x Hx). apply andb_true_iff; split; apply Z.leb_le; lia. }
    cbn [bind]. rewrite Henc, !replace_all_single, map_map, map_app, map_repeat.
    cbn -[map]. rewrite replace_all_app, replace_all_repeat, app_nil_r.
    f_equal. apply replace_all_absent. apply Forall_forall. intros x Hx.
    apply in_map_iff in Hx as (y & <- & Hy). apply (Hh y Hy).
  - unfold base64urlToBytes.
    rewrite !replace_all_single, !map_map.
    rewrite (map_ext_in _ (fun x => x)) by (intros x Hx; apply (Hh x Hx)).
    rewrite map_id.
    replace ((4 - length body mod 4) mod 4)%nat with p.
    2:{ symmetry. apply (pad_count _ _ Hp Hlen). }
    unfold atob. cbv zeta.
    assert (Hnw : Forall (fun c => negb (is_ascii_whitespace c) = true) (body ++ repeat 61 p)).
    { apply Forall_app. split.
      - apply Forall_forall. intros x Hx. rewrite Forall_forall in Hbody.
        destruct (b64_char_not_special x (Hbody x Hx)) as (_ & _ & _ & ->). reflexivity.
      - apply Forall_forall. intros x Hx. apply repeat_spec in Hx as ->. reflexivity. }
    rewrite (filter_all _ _ Hnw).
    replace (Nat.eqb (length (body ++ repeat 61 p) mod 4) 0) with true
      by (rewrite length_app, repeat_length; symmetry; apply Nat.eqb_eq; exact Hlen).
    rewrite strip_padding_body; [|exact Hp|].
    2:{ apply Forall_forall. intros x Hx. rewrite Forall_forall in Hbody.
        apply (b64_char_not_special x (Hbody x Hx)). }
    replace (Nat.eqb (length body mod 4) 1) with false.
    2:{ symmetry. apply Nat.eqb_neq. apply (pad_count _ _ Hp Hlen). }
    replace (forallb is_b64_char body) with true
      by (symmetry; apply forallb_forall; apply Forall_forall; exact Hbody).
    cbn [negb bind]. rewrite Hdec. f_equal.
    rewrite <- (map_id b) at 2. apply map_ext_in. intros x Hx.
    rewrite Forall_forall in Hb. apply Z.mod_small. apply Hb, Hx.
  - intros Hx. apply in_map_iff in Hx as (y & E & Hy). exact (proj1 (Hh y Hy) E).
  - intros Hx. apply in_map_iff in Hx as (y & E & Hy). exact (proj1 (proj2 (Hh y Hy)) E).
  - intros Hx. apply in_map_iff in Hx as (y & E & Hy).
    exact (proj1 (proj2 (proj2 (Hh y Hy))) E).
Qed.

Lemma base64url_roundtrip_witness :
  bytesToBase64url [1; 2; 3; 4; 5; 255; 254] = Ok (js_str "AQIDBAX__g") /\
  base64urlToBytes (js_str "AQIDBAX__g") = Ok [1; 2; 3; 4; 5; 255; 254].
Proof.
  assert (Hb : Forall (fun x => 0 <= x < 256) [1; 2; 3; 4; 5; 255; 254])
    by (repeat constructor; lia).
  destruct (base64url_roundtrip _ Hb) as (t & E1 & E2 & _).
  assert (Ht : t = js_str "AQIDBAX__g")
    by (vm_compute in E1; injection E1 as <-; reflexivity).
  subst t. split; [exact E1 | exact E2].
Defined.

(* ------------------------------------------------------------------ *)
(** ** did:key identifiers *)

Example createEd25519Did_zero_key :
  createEd25519Did (repeat 0 32)
  = Ok (js_str "did:key:z6MkeTG3bFFSLYVU7VqhgZxqr6YzpaGrQtFMh1uvqGy1vDnP").
Proof. vm_compute. reflexivity. Qed.


Lemma fold_be_value (base acc : Z) (ds : list Z) :
  fold_left (fun acc d => acc * base + d) ds acc
  = acc * base ^ Z.of_nat (length ds) + be_value base ds.
Proof.
  unfold be_value. revert acc. induction ds as [|d ds IH]; intros acc.
  - simpl. lia.
  - cbn [fold_left length]. rewrite IH, (IH (0 * base + d)).
    rewrite Nat2Z.inj_succ, Z.pow_succ_r by lia. ring.
Qed.

Lemma be_value_rev (base : Z) (ds : list Z) : be_value base ds = le_value base (rev ds).
Proof.
  induction ds as [|d ds IH] using rev_ind; [reflexivity|].
  rewrite rev_app_distr. cbn [rev app le_value].
  unfold be_value. rewrite fold_left_app. cbn [fold_left].
  fold (be_value base ds). rewrite IH. ring.
Qed.

Section Digits.

Variable base : Z.
Hypothesis Hbase : 2 <= base.


Lemma le_value_nonneg (ds : list Z) :
  Forall (fun d => 0 <= d < base) ds -> 0 <= le_value base ds.
Proof. induction 1; cbn [le_value]; nia. Qed.

Lemma le_value_lower (d : Z) (ds : list Z) :
  canonical_le base (d :: ds) -> base ^ Z.of_nat (length ds) <= le_value base (d :: ds).
Proof.
  revert d. induction ds as [|d' ds IH]; intros d [Hf Hl].
  - cbn in *. inversion Hf. lia.
  - inversion Hf as [|? ? Hd Hf']; subst.
    assert (H := IH d' (conj Hf' Hl)).
    cbn [le_value length] in *. rewrite Nat2Z.inj_succ, Z.pow_succ_r by lia. nia.
Qed.

Lemma le_digits_zero (f : nat) : le_digits f base 0 = [].
Proof. destruct f; reflexivity. Qed.

Lemma le_digits_value (f : nat) (ds : list Z) :
  canonical_le base ds -> (length ds <= f)%nat -> le_digits f base (le_value base ds) = ds.
Proof.
  revert f. induction ds as [|d ds IH]; intros f [Hf Hl] Hlen.
  - apply le_digits_zero.
  - destruct f as [|f]; [cbn in Hlen; lia|].
    inversion Hf as [|? ? Hd Hf']; subst.
    assert (Hpos : 0 < le_value base (d :: ds)).
    { pose proof (le_value_lower d ds (conj Hf Hl)).
      pose proof (Z.pow_pos_nonneg base (Z.of_nat (length ds))). lia. }
    cbn [le_digits]. replace (le_value base (d :: ds) <=? 0) with false
      by (symmetry; apply Z.leb_gt; exact Hpos).
    cbn [le_value] in *.
    assert (Hv : 0 <= le_value base ds) by (apply le_value_nonneg; exact Hf').
    assert (Hm : (d + base * le_value base ds) mod base = d)
      by (rewrite Z.mul_comm, Z.mod_add by lia; apply Z.mod_small; lia).
    assert (Hq : (d + base * le_value base ds) / base = le_value base ds)
      by (rewrite Z.mul_comm, Z.div_add by lia; rewrite Z.div_small by lia; lia).
    rewrite Hm, Hq. f_equal. destruct ds as [|d' ds].
    + apply le_digits_zero.
    + apply IH; [split; [exact Hf' | exact Hl] | cbn in *; lia].
Qed.

Lemma le_value_digits (f : nat) (n : Z) :
  0 <= n < base ^ Z.of_nat f -> le_value base (le_digits f base n) = n.
Proof.
  revert n. induction f as [|f IH]; intros n Hn.
  - cbn in *. lia.
  - cbn [le_digits]. destruct (Z.leb_spec n 0); [cbn; lia|].
    cbn [le_value]. rewrite IH.
    + rewrite (Z.div_mod n base) at 3 by lia. ring.
    + rewrite Nat2Z.inj_succ, Z.pow_succ_r in Hn by lia.
      split; [apply Z.div_pos; lia | apply Z.div_lt_upper_bound; lia].
Qed.

Lemma le_digits_canonical (f : nat) (n : Z) :
  0 <= n < base ^ Z.of_nat f -> canonical_le base (le_digits f base n).
Proof.
  revert n. induction f as [|f IH]; intros n Hn.
  - split; [constructor | discriminate].
  - cbn [le_digits]. destruct (Z.leb_spec n 0); [split; [constructor | discriminate]|].
    rewrite Nat2Z.inj_succ, Z.pow_succ_r in Hn by lia.
    assert (Hq : 0 <= n / base < base ^ Z.of_nat f)
      by (split; [apply Z.div_pos; lia | apply Z.div_lt_upper_bound; lia]).
    destruct (IH (n / base) Hq) as [Hf Hl].
    split.
    + constructor; [apply Z.mod_pos_bound; lia | exact Hf].
    + destruct (Z.eq_dec (n / base) 0) as [E|E].
      * rewrite E, le_digits_zero. cbn [last].
        rewrite Z.mod_small; [lia|]. split; [lia|].
        assert (n < base) by (apply Z.div_small_iff in E; lia). lia.
      * destruct (le_digits f base (n / base)) as [|d ds] eqn:Ed.
        -- exfalso. apply E. rewrite <- (le_value_digits f (n / base) Hq), Ed. reflexivity.
        -- exact Hl.
Qed.

(** Enough fuel: [n < 2 ^ (log2 n + 1) <= base ^ (log2 n + 1)]. *)
Lemma log2_fuel (n : Z) : 0 <= n -> n < base ^ Z.of_nat (S (Z.to_nat (Z.log2 n))).
Proof.
  intros Hn. rewrite Nat2Z.inj_succ, Z2Nat.id by apply Z.log2_nonneg.
  apply Z.lt_le_trans with (2 ^ Z.succ (Z.log2 n)).
  - destruct (Z.eq_dec n 0) as [->|Hn0]; [reflexivity|]. apply Z.log2_spec. lia.
  - apply Z.pow_le_mono_l. lia.
Qed.

Lemma canonical_fuel (ds : list Z) :
  canonical_le base ds -> (length ds <= S (Z.to_nat (Z.log2 (le_value base ds))))%nat.
Proof.
  intros Hc. destruct ds as [|d ds]; [cbn; lia|].
  pose proof (le_value_lower d ds Hc) as H.
  assert (Hk : Z.of_nat (length ds) <= Z.log2 (le_value base (d :: ds))).
  { apply Z.le_trans with (Z.log2 (base ^ Z.of_nat (length ds))).
    - apply Z.le_trans with (Z.log2 (2 ^ Z.of_nat (length ds))).
      + rewrite Z.log2_pow2; lia.
      + apply Z.log2_le_mono, Z.pow_le_mono_l. lia.
    - apply Z.log2_le_mono, H. }
  cbn [length]. lia.
Qed.

(** [be_digits] and [be_value] are inverse on numbers and on canonical
    (most significant first) digit lists. *)
Lemma be_value_digits (n : Z) : 0 <= n -> be_value base (be_digits base n) = n.
Proof.
  intros Hn. unfold be_digits. rewrite be_value_rev, rev_involutive.
  apply le_value_digits. split; [exact Hn | apply log2_fuel, Hn].
Qed.

Lemma be_digits_value (ds : list Z) :
  canonical_le base (rev ds) -> be_digits base (be_value base ds) = ds.
Proof.
  intros Hc. unfold be_digits. rewrite be_value_rev.
  rewrite le_digits_value; [apply rev_involutive | exact Hc | apply canonical_fuel, Hc].
Qed.

Lemma be_digits_canonical (n : Z) : 0 <= n -> canonical_le base (rev (be_digits base n)).
Proof.
  intros Hn. unfold be_digits. rewrite rev_involutive.
  apply le_digits_canonical. split; [exact Hn | apply log2_fuel, Hn].
Qed.

End Digits.

Lemma b58_alphabet_ok :
  forallb (fun d => match b58_index (b58_char d) with Some e => e =? d | None => false end)
          (map Z.of_nat (seq 0 58)) = true.
Proof. vm_compute. reflexivity. Qed.

Lemma b58_index_char (d : Z) : 0 <= d < 58 -> b58_index (b58_char d) = Some d.
Proof.
  intros Hd. pose proof b58_alphabet_ok as H. rewrite forallb_forall in H.
  assert (Hin : In d (map Z.of_nat (seq 0 58)))
    by (apply in_map_iff; exists (Z.to_nat d); split; [lia | apply in_seq; lia]).
  specialize (H d Hin).
  destruct (b58_index (b58_char d)) as [e|]; [|discriminate H].
  apply Z.eqb_eq in H. subst. reflexivity.
Qed.

Lemma b58_char_one (d : Z) : 0 <= d < 58 -> b58_char d = 49 -> d = 0.
Proof.
  intros Hd E. pose proof (b58_index_char d Hd) as H. rewrite E in H.
  vm_compute in H. congruence.
Qed.

Lemma b58_base_map_ok :
  forallb (fun d => match BASE_MAP (b58_char d) with Some e => e =? d | None => false end)
          (map Z.of_nat (seq 0 58)) = true.
Proof. vm_compute. reflexivity. Qed.

Lemma BASE_MAP_char (d : Z) : 0 <= d < 58 -> BASE_MAP (b58_char d) = Some d.
Proof.
  intros Hd. pose proof b58_base_map_ok as H. rewrite forallb_forall in H.
  assert (Hin : In d (map Z.of_nat (seq 0 58)))
    by (apply in_map_iff; exists (Z.to_nat d); split; [lia | apply in_seq; lia]).
  specialize (H d Hin).
  destruct (BASE_MAP (b58_char d)) as [e|]; [|discriminate H].
  apply Z.eqb_eq in H. subst. reflexivity.
Qed.

(** On alphabet characters the decoding loop computes the base-58 value. *)
Lemma baseX_decode_loop_digits (N : Z) (ds : list Z) :
  Forall (fun d => 0 <= d < 58) ds ->
  baseX_decode_loop N (map b58_char ds) = Some (fold_left (fun acc d => acc * 58 + d) ds N).
Proof.
  revert N; induction ds as [|d ds IH]; intros N Hds; [reflexivity|].
  inversion Hds as [|? ? Hd Hds']; subst.
  cbn [map baseX_decode_loop fold_left]. rewrite (BASE_MAP_char d Hd).
  replace (d =? 255) with false by (symmetry; apply Z.eqb_neq; lia).
  rewrite (IH _ Hds'). f_equal. f_equal. lia.
Qed.

Lemma count_leading_split (z : Z) (l : list Z) :
  l = repeat z (count_leading z l) ++ skipn (count_leading z l) l /\
  last (rev (skipn (count_leading z l) l)) (z + 1) <> z.
Proof.
  induction l as [|x l IH]; [split; [reflexivity | cbn; lia]|].
  cbn [count_leading]. destruct (Z.eqb_spec x z) as [->|Hx].
  - destruct IH as [IH1 IH2]. split; [|exact IH2].
    cbn [repeat app skipn]. f_equal. exact IH1.
  - split; [reflexivity|]. cbn [skipn rev].
    rewrite last_last. exact Hx.
Qed.

Lemma count_leading_app (z : Z) (n : nat) (l : list Z) :
  (forall x t, l = x :: t -> x <> z) ->
  count_leading z (repeat z n ++ l) = n.
Proof.
  intros Hl. induction n as [|n IH].
  - destruct l as [|x t]; [reflexivity|]. cbn.
    rewrite (proj2 (Z.eqb_neq x z) (Hl x t eq_refl)). reflexivity.
  - cbn. rewrite Z.eqb_refl, IH. reflexivity.
Qed.

(** base-x decoding inverts base-x encoding on byte strings. *)
Lemma baseX_roundtrip (bytes : list Z) :
  Forall (fun x => 0 <= x < 256) bytes -> baseX_decode (baseX_encode bytes) = Ok bytes.
Proof.
  intros Hb. unfold baseX_encode, baseX_decode.
  set (z := count_leading 0 bytes). set (rest := skipn z bytes).
  destruct (count_leading_split 0 bytes) as [Hsplit Hhead]. fold z rest in Hsplit, Hhead.
  assert (Hrest : Forall (fun x => 0 <= x < 256) rest).
  { pose proof Hb as Hb'. rewrite <- (firstn_skipn z bytes) in Hb'.
    apply Forall_app in Hb'. apply Hb'. }
  clearbody rest z.
  assert (Hv : 0 <= be_value 256 rest)
    by (rewrite be_value_rev; apply le_value_nonneg; [lia | apply Forall_rev, Hrest]).
  destruct (be_digits_canonical 58 ltac:(lia) (be_value 256 rest) Hv) as [HDf HDl].
  remember (be_digits 58 (be_value 256 rest)) as D eqn:HD.
  assert (HDf' : Forall (fun d => 0 <= d < 58) D)
    by (apply Forall_forall; intros x Hx; rewrite Forall_forall in HDf;
        apply HDf; apply in_rev; rewrite rev_involutive; exact Hx).
  rewrite count_leading_app.
  2:{ intros x t E. destruct D as [|d D'] eqn:ED; [discriminate|].
      cbn [map] in E. injection E as <- _.
      inversion HDf' as [|? ? Hd _].
      intros E. apply b58_char_one in E; [|exact Hd].
      cbn [rev] in HDl. rewrite ?last_last in HDl. congruence. }
  rewrite skipn_app, repeat_length, Nat.sub_diag, skipn_all2 by (rewrite repeat_length; lia).
  cbn [app skipn].
  rewrite (baseX_decode_loop_digits 0 D HDf').
  change (fold_left (fun acc d => acc * 58 + d) D 0) with (be_value 58 D).
  rewrite HD, be_value_digits by lia.
  rewrite be_digits_value by (lia || (split; [apply Forall_rev, Hrest | exact Hhead])).
  rewrite Hsplit. reflexivity.
Qed.

Lemma base58btc_roundtrip (bytes : list Z) :
  Forall (fun x => 0 <= x < 256) bytes -> base58btc_decode (base58btc_encode bytes) = Ok bytes.
Proof. intros Hb. apply (baseX_roundtrip bytes Hb). Qed.

Lemma createEd25519Did_eq (pk : list Z) :
  createEd25519Did pk = Ok (js_str "did:key:" ++ base58btc_encode ([237; 1] ++ pk)).
Proof.
  pose proof (typed_set_fill [237; 1] pk 0) as H.
  rewrite Nat.add_0_r in H. change (Z.of_nat (length [237; 1])) with 2 in H.
  cbn [app repeat] in H. rewrite app_nil_r in H.
  unfold createEd25519Did. cbn [repeat Nat.add].
  unfold typed_store. cbn -[typed_set repeat base58btc_encode js_str].
  rewrite H. reflexivity.
Qed.

Lemma createP256Did_eq (pk : list Z) :
  createP256Did pk = Ok (js_str "did:key:" ++ base58btc_encode ([128; 36] ++ pk)).
Proof.
  pose proof (typed_set_fill [] [128; 36] (length pk)) as H1.
  pose proof (typed_set_fill [128; 36] pk 0) as H2.
  rewrite Nat.add_0_r in H2. change (Z.of_nat (length [128; 36])) with 2 in H2.
  change (Z.of_nat (length (@nil Z))) with 0 in H1.
  cbn [app repeat length] in H1, H2. rewrite app_nil_r in H2.
  unfold createP256Did. cbn [length].
  replace (2 + length pk)%nat with (length [128; 36] + length pk)%nat by reflexivity.
  cbn [length]. rewrite H1. cbn [bind]. change (Z.of_nat 2) with 2. rewrite H2. reflexivity.
Qed.

Lemma slice_from_tag (tag pk : list Z) :
  length tag = 2%nat -> slice_from (tag ++ pk) 2 = pk.
Proof.
  intros Ht. unfold slice_from, slice. rewrite length_app, Ht.
  unfold rel_index.
  replace (2 <? 0) with false by reflexivity.
  replace (Z.of_nat (2 + length pk) <? 0) with false by (symmetry; apply Z.ltb_ge; lia).
  rewrite Z.min_id, (Z.min_l 2) by lia.
  replace (Z.to_nat (Z.of_nat (2 + length pk) - 2)) with (length pk) by lia.
  change (Z.to_nat 2) with 2%nat.
  destruct tag as [|a [|b [|c tag]]]; try discriminate. cbn [skipn app].
  apply firstn_all.
Qed.

Lemma extract_did (tag pk : list Z) :
  length tag = 2%nat -> Forall (fun x => 0 <= x < 256) (tag ++ pk) ->
  extractPublicKeyFromDid (js_str "did:key:" ++ base58btc_encode (tag ++ pk)) = Ok pk.
Proof.
  intros Ht Hb. unfold extractPublicKeyFromDid, base58btc_encode.
  set (X := baseX_encode (tag ++ pk)).
  replace (starts_with (js_str "did:key:" ++ 122 :: X) (js_str "did:key:z")) with true
    by reflexivity.
  change (skipn 8 (js_str "did:key:" ++ 122 :: X)) with (122 :: X).
  cbn [negb base58btc_decode]. rewrite Z.eqb_refl.
  unfold X. rewrite (baseX_roundtrip _ Hb). cbn [bind]. f_equal. apply slice_from_tag, Ht.
Qed.

(** C9: the did:key identifier of a key is [did:key:z] followed by the
    base58 text of the tag bytes and the key, with the tag [0xed 0x01] for
    Ed25519 and the varint of 0x1200, [0x80 0x24], for P-256.  The tags
    differ, base58btc decoding the identifier after [did:key:] gives the
    tag and the key back, and [extractPublicKeyFromDid] returns the key. *)
Theorem did_key_identifiers (pk : list Z) :
  Forall (fun x => 0 <= x < 256) pk ->
  exists didE didP,
    createEd25519Did pk = Ok didE /\ createP256Did pk = Ok didP /\
    didE = js_str "did:key:z" ++ baseX_encode ([237; 1] ++ pk) /\
    didP = js_str "did:key:z" ++ baseX_encode (varintEncode P256_PUB ++ pk) /\
    varintEncode P256_PUB = [128; 36] /\ [237; 1] <> [128; 36] /\
    base58btc_decode (skipn 8 didE) = Ok ([237; 1] ++ pk) /\
    base58btc_decode (skipn 8 didP) = Ok ([128; 36] ++ pk) /\
    extractPublicKeyFromDid didE = Ok pk /\ extractPublicKeyFromDid didP = Ok pk.
Proof.
  intros Hpk.
  assert (HE : Forall (fun x => 0 <= x < 256) ([237; 1] ++ pk))
    by (apply Forall_app; split; [repeat constructor; lia | exact Hpk]).
  assert (HP : Forall (fun x => 0 <= x < 256) ([128; 36] ++ pk))
    by (apply Forall_app; split; [repeat constructor; lia | exact Hpk]).
  exists (js_str "did:key:" ++ base58btc_encode ([237; 1] ++ pk)),
         (js_str "did:key:" ++ base58btc_encode ([128; 36] ++ pk)).
  split; [apply createEd25519Did_eq|].
  split; [apply createP256Did_eq|].
  split; [reflexivity|]. split; [reflexivity|].
  split; [reflexivity|]. split; [discriminate|].
  split; [apply (base58btc_roundtrip _ HE)|].
  split; [apply (base58btc_roundtrip _ HP)|].
  split; apply extract_did; auto.
Qed.

Lemma did_key_identifiers_witness :
  createEd25519Did (repeat 0 32)
    = Ok (js_str "did:key:z6MkeTG3bFFSLYVU7VqhgZxqr6YzpaGrQtFMh1uvqGy1vDnP") /\
  extractPublicKeyFromDid (js_str "did:key:z6MkeTG3bFFSLYVU7VqhgZxqr6YzpaGrQtFMh1uvqGy1vDnP")
    = Ok (repeat 0 32).
Proof.
  assert (Hpk : Forall (fun x => 0 <= x < 256) (repeat 0 32))
    by (apply Forall_forall; intros x Hx; apply repeat_spec in Hx; lia).
  destruct (did_key_identifiers _ Hpk) as (didE & didP & E1 & _ & _ & _ & _ & _ & _ & _ & E2 & _).
  assert (Hd : didE = js_str "did:key:z6MkeTG3bFFSLYVU7VqhgZxqr6YzpaGrQtFMh1uvqGy1vDnP")
    by (vm_compute in E1; injection E1 as <-; reflexivity).
  subst didE. split; [exact E1 | exact E2].
Defined.

(* ================================================================== *)
(** * Further properties of the library *)

(* ------------------------------------------------------------------ *)
(** ** varintEncode / varintDecode below 2^31 *)

Lemma range_check (P : Z -> bool) (lo : Z) (n : nat) :
  forallb P (map (fun i => lo + Z.of_nat i) (seq 0 n)) = true ->
  forall x, lo <= x < lo + Z.of_nat n -> P x = true.
Proof.
  intros H x Hx. rewrite forallb_forall in H. apply H, in_map_iff.
  exists (Z.to_nat (x - lo)). split; [lia|]. apply in_seq. lia.
Qed.

Lemma ToInt32_small (x : Z) : 0 <= x < 2 ^ 31 -> ToInt32 x = x.
Proof.
  intros H. unfold ToInt32. rewrite Z.mod_small by lia.
  destruct (x <? 2 ^ 31) eqn:E; lia.
Qed.

Lemma lor_disjoint (a b s : Z) :
  0 <= s -> 0 <= a < 2 ^ s -> 0 <= b -> Z.lor a (b * 2 ^ s) = a + b * 2 ^ s.
Proof.
  intros Hs Ha Hb.
  assert (H0 : Z.land a (b * 2 ^ s) = 0).
  { rewrite <- Z.shiftl_mul_pow2 by lia. apply Z.bits_inj'. intros i Hi.
    rewrite Z.land_spec, Z.bits_0. destruct (Z.lt_ge_cases i s).
    - rewrite Z.shiftl_spec_low by lia. apply andb_false_r.
    - rewrite <- (Z.mod_small a (2 ^ s)) by lia.
      rewrite Z.mod_pow2_bits_high by lia. reflexivity. }
  rewrite Z.add_nocarry_lxor by exact H0. symmetry. apply Z.lxor_lor, H0.
Qed.

(** The byte-level facts of one continuation or final byte. *)
Lemma varint_byte_facts (x : Z) :
  0 <= x < 128 ->
  Z.land (Z.lor x 128) 127 = x /\ Z.land (Z.lor x 128) 128 = 128 /\
  128 <= Z.lor x 128 < 256 /\ Z.land x 128 = 0 /\ Z.land x 127 = x.
Proof.
  intros Hx.
  pose proof (range_check
    (fun x => (Z.land (Z.lor x 128) 127 =? x) && (Z.land (Z.lor x 128) 128 =? 128) &&
              (128 <=? Z.lor x 128) && (Z.lor x 128 <? 256) && (Z.land x 128 =? 0) &&
              (Z.land x 127 =? x)) 0 128 ltac:(vm_compute; reflexivity) x ltac:(lia)) as H.
  repeat rewrite andb_true_iff in H. rewrite !Z.eqb_eq, Z.leb_le, Z.ltb_lt in H.
  tauto.
Qed.

Lemma js_shl_small (x s : Z) :
  0 <= s < 31 -> 0 <= x -> x * 2 ^ s < 2 ^ 31 -> js_shl x s = x * 2 ^ s.
Proof.
  intros Hs Hx Hb. assert (x < 2 ^ 31).
  { assert (1 <= 2 ^ s) by (pose proof (Z.pow_pos_nonneg 2 s ltac:(lia) ltac:(lia)); lia). nia. }
  unfold js_shl. rewrite (ToInt32_small x) by lia.
  unfold ToUint32. rewrite (Z.mod_small s) by lia.
  change 31 with (Z.ones 5). rewrite Z.land_ones by lia.
  rewrite (Z.mod_small s) by (change (2 ^ 5) with 32; lia).
  rewrite Z.shiftl_mul_pow2 by lia. apply ToInt32_small.
  split; [apply Z.mul_nonneg_nonneg; [lia | apply Z.pow_nonneg; lia] | lia].
Qed.

Lemma js_or_disjoint (v y s : Z) :
  0 <= s -> 0 <= v < 2 ^ s -> 0 <= y -> y * 2 ^ s + v < 2 ^ 31 ->
  js_or v (y * 2 ^ s) = y * 2 ^ s + v.
Proof.
  intros Hs Hv Hy Hb. assert (0 <= y * 2 ^ s) by (apply Z.mul_nonneg_nonneg; lia).
  unfold js_or. rewrite (ToInt32_small v), (ToInt32_small (y * 2 ^ s)) by lia.
  rewrite lor_disjoint by lia. rewrite ToInt32_small by lia. lia.
Qed.

(** Decoding the bytes of [varintEncode_loop f n], followed by anything,
    from an accumulator [v] at shift [s]. *)
Lemma varint_loop_roundtrip (f : nat) (n v s r : Z) (rest : list (option Z)) :
  0 <= n -> 0 <= s < 31 -> 0 <= v < 2 ^ s -> n * 2 ^ s + v < 2 ^ 31 ->
  n < 128 * 2 ^ (7 * Z.of_nat f) ->
  varintDecode_loop (map Some (varintEncode_loop f n) ++ rest) v s r
  = Ok (n * 2 ^ s + v, r + Z.of_nat (length (varintEncode_loop f n))).
Proof.
  revert n v s r. induction f as [|f IH]; intros n v s r Hn Hs Hv Hb Hf.
  - cbn [varintEncode_loop map app varintDecode_loop length].
    assert (n < 128) by (simpl in Hf; lia).
    destruct (varint_byte_facts n ltac:(lia)) as (_ & _ & _ & H4 & H5).
    unfold read_and. rewrite ToInt32_small by lia. rewrite !H5, H4. cbn -[js_or js_shl].
    rewrite js_shl_small by nia. rewrite js_or_disjoint by nia. try (f_equal; f_equal; lia).
  - cbn [varintEncode_loop]. destruct (128 <=? n) eqn:E.
    + apply Z.leb_le in E.
      assert (Hm : 0 <= n mod 128 < 128) by (apply Z.mod_pos_bound; lia).
      destruct (varint_byte_facts (n mod 128) Hm) as (H1 & H2 & H3 & _ & _).
      change 127 with (Z.ones 7) at 1. rewrite Z.land_ones by lia.
      change (2 ^ 7) with 128.
      cbn [map app varintDecode_loop length]. unfold read_and.
      rewrite ToInt32_small by lia. rewrite H1, H2.
      change (Z.ones 7) with 127.
      assert (Hq : js_ushr n 7 = n / 128).
      { unfold js_ushr, ToUint32. rewrite (Z.mod_small n) by lia.
        change (Z.land (7 mod 2 ^ 32) 31) with 7.
        rewrite Z.shiftr_div_pow2 by lia. reflexivity. }
      rewrite Hq.
      assert (Hdm : n = 128 * (n / 128) + n mod 128) by (apply Z.div_mod; lia).
      assert (Hps : 2 ^ (s + 7) = 2 ^ s * 128) by (rewrite Z.pow_add_r by lia; reflexivity).
      assert (Hpos : 0 < 2 ^ s) by (apply Z.pow_pos_nonneg; lia).
      assert (Hs7 : s + 7 < 31).
      { destruct (Z.lt_ge_cases (s + 7) 31) as [|Hge]; [assumption|].
        assert (2 ^ 31 <= 2 ^ (s + 7)) by (apply Z.pow_le_mono_r; lia). nia. }
      cbn -[js_or js_shl].
      rewrite js_shl_small by nia. rewrite js_or_disjoint by nia.
      replace (53 <? s + 7) with false by (symmetry; apply Z.ltb_ge; lia).
      rewrite IH; [| apply Z.div_pos; lia | lia | nia | nia |].
      * f_equal. f_equal; [nia | lia].
      * replace (7 * Z.of_nat (S f)) with (7 + 7 * Z.of_nat f) in Hf by lia.
        rewrite Z.pow_add_r in Hf by lia. change (2 ^ 7) with 128 in Hf.
        apply Z.div_lt_upper_bound; lia.
    + apply Z.leb_gt in E.
      destruct (varint_byte_facts n ltac:(lia)) as (_ & _ & _ & H4 & H5).
      cbn [map app varintDecode_loop length]. unfold read_and.
      rewrite ToInt32_small by lia. rewrite !H5, H4. cbn -[js_or js_shl].
      rewrite js_shl_small by nia. rewrite js_or_disjoint by nia. try (f_equal; f_equal; lia).
Qed.

(** [varintDecode] reads back a [varintEncode]d value below [2^31] at any
    offset of any byte array that holds its encoding there. *)
Lemma varint_roundtrip_at (pre rest : list Z) (n : Z) :
  0 <= n < 2 ^ 31 ->
  varintDecode (pre ++ varintEncode n ++ rest) (Z.of_nat (length pre))
  = Ok (n, Z.of_nat (length (varintEncode n))).
Proof.
  intros Hn. rewrite varintDecode_skip by reflexivity.
  unfold varintDecode. rewrite reads_from_nonneg by lia. simpl skipn.
  rewrite map_app. unfold varintEncode.
  rewrite varint_loop_roundtrip by (simpl; lia).
  f_equal. f_equal. lia.
Qed.

(** X1: [varintDecode] inverts [varintEncode] for every value in
    [0, 2^31): decoding at offset 0 a byte array that starts with
    [varintEncode n] gives [n] and the length of that encoding, whatever
    follows it. *)
Theorem varint_roundtrip_below_2_31 (n : Z) (rest : list Z) :
  0 <= n < 2 ^ 31 ->
  varintDecode (varintEncode n ++ rest) 0 = Ok (n, Z.of_nat (length (varintEncode n))).
Proof. intros Hn. exact (varint_roundtrip_at [] rest n Hn). Qed.

Lemma varint_roundtrip_below_2_31_witness :
  varintDecode (varintEncode (2 ^ 31 - 1) ++ [7]) 0 = Ok (2 ^ 31 - 1, 5).
Proof.
  exact (varint_roundtrip_below_2_31 (2 ^ 31 - 1) [7] ltac:(lia)).
Defined.

Lemma land_127_range (n : Z) : 0 <= Z.land n 127 < 128.
Proof.
  change 127 with (Z.ones 7). rewrite Z.land_ones by lia.
  apply Z.mod_pos_bound. reflexivity.
Qed.

Lemma varintEncode_loop_shape (f : nat) (n : Z) :
  exists init last, varintEncode_loop f n = init ++ [last] /\
    Forall (fun b => 128 <= b < 256) init /\ 0 <= last < 128 /\ (length init <= f)%nat.
Proof.
  revert n. induction f as [|f IH]; intros n; cbn [varintEncode_loop].
  - exists [], (Z.land n 127). pose proof (land_127_range n).
    split; [reflexivity|]. split; [constructor|]. split; [lia | simpl; lia].
  - destruct (128 <=? n).
    + destruct (IH (js_ushr n 7)) as (init & last & H1 & H2 & H3 & H4).
      exists (Z.lor (Z.land n 127) 128 :: init), last. rewrite H1.
      destruct (varint_byte_facts (Z.land n 127) (land_127_range n)) as (_ & _ & H5 & _).
      split; [reflexivity|]. split; [constructor; [lia | exact H2]|].
      split; [exact H3 | simpl; lia].
    + exists [], (Z.land n 127). pose proof (land_127_range n).
      split; [reflexivity|]. split; [constructor|]. split; [lia | simpl; lia].
Qed.

(** X2: for every number [n], [varintEncode n] is a well-formed LEB128
    varint of one to five bytes: every byte lies in [0, 256), every byte
    but the last has its continuation bit 0x80 set, and the last is below
    0x80. *)
Theorem varintEncode_shape (n : Z) :
  exists init last, varintEncode n = init ++ [last] /\
    Forall (fun b => 128 <= b < 256) init /\ 0 <= last < 128 /\ (length init <= 4)%nat.
Proof.
  unfold varintEncode. change 8%nat with (4 + 4)%nat. rewrite (varintEncode_loop_fuel 4 n).
  apply varintEncode_loop_shape.
Qed.

Lemma continuation_byte (b : Z) : 128 <= b < 256 -> (read_and (Some b) 128 =? 0) = false.
Proof.
  intros Hb. unfold read_and. rewrite ToInt32_small by lia.
  pose proof (range_check (fun x => negb (Z.land x 128 =? 0)) 128 128
                ltac:(vm_compute; reflexivity) b ltac:(lia)) as H.
  apply negb_true_iff in H. exact H.
Qed.

Lemma varintDecode_loop_continuations (hs : list Z) (rest : list (option Z)) v s r :
  Forall (fun b => 128 <= b < 256) hs -> s <= 53 < s + 7 * Z.of_nat (length hs) ->
  varintDecode_loop (map Some hs ++ rest) v s r = Throw VarintTooLarge.
Proof.
  revert v s r. induction hs as [|b hs IH]; intros v s r Hh Hs; [simpl in Hs; lia|].
  inversion Hh as [|? ? Hb Hh']; subst. cbn [map app varintDecode_loop].
  rewrite continuation_byte by exact Hb.
  destruct (53 <? s + 7) eqn:E; [reflexivity|]. apply Z.ltb_ge in E.
  apply IH; [exact Hh' | simpl length in Hs; lia].
Qed.

Lemma varintDecode_loop_unfinished (hs : list Z) v s r :
  Forall (fun b => 128 <= b < 256) hs -> s + 7 * Z.of_nat (length hs) <= 53 ->
  varintDecode_loop (map Some hs) v s r = Throw VarintIncomplete.
Proof.
  revert v s r. induction hs as [|b hs IH]; intros v s r Hh Hs; [reflexivity|].
  inversion Hh as [|? ? Hb Hh']; subst. cbn [map varintDecode_loop].
  rewrite continuation_byte by exact Hb.
  replace (53 <? s + 7) with false by (symmetry; apply Z.ltb_ge; simpl length in Hs; lia).
  apply IH; [exact Hh' | simpl length in Hs; lia].
Qed.

(** X3: [varintDecode] rejects a varint that would need more than 53 bits:
    when the eight bytes at a non-negative [offset] all have their
    continuation bit set, it throws 'Varint too large', whatever follows. *)
Theorem varintDecode_too_large (bytes : list Z) (offset : Z) :
  0 <= offset -> (Z.to_nat offset + 8 <= length bytes)%nat ->
  Forall (fun b => 128 <= b < 256) (firstn 8 (skipn (Z.to_nat offset) bytes)) ->
  varintDecode bytes offset = Throw VarintTooLarge.
Proof.
  intros Ho Hl Hh. unfold varintDecode. rewrite reads_from_nonneg by exact Ho.
  rewrite <- (firstn_skipn 8 (skipn (Z.to_nat offset) bytes)), map_app.
  apply varintDecode_loop_continuations; [exact Hh|].
  rewrite length_firstn, length_skipn. lia.
Qed.

Lemma varintDecode_too_large_witness :
  varintDecode [1; 128; 255; 200; 128; 128; 129; 130; 131; 0] 1 = Throw VarintTooLarge.
Proof.
  apply varintDecode_too_large; [lia | simpl; lia |].
  repeat constructor; lia.
Defined.

(** X4: [varintDecode] throws 'Varint incomplete' when the array ends
    before the varint does: at a non-negative [offset] with fewer than eight
    bytes left, all of them with the continuation bit set.  In particular
    an [offset] at or past the end of the array always throws it. *)
Theorem varintDecode_incomplete (bytes : list Z) (offset : Z) :
  0 <= offset -> (length bytes < Z.to_nat offset + 8)%nat ->
  Forall (fun b => 128 <= b < 256) (skipn (Z.to_nat offset) bytes) ->
  varintDecode bytes offset = Throw VarintIncomplete.
Proof.
  intros Ho Hl Hh. unfold varintDecode. rewrite reads_from_nonneg by exact Ho.
  apply varintDecode_loop_unfinished; [exact Hh|]. rewrite length_skipn. lia.
Qed.

Lemma varintDecode_incomplete_witness :
  varintDecode [209; 93; 128; 255] 2 = Throw VarintIncomplete /\
  varintDecode [209; 93] 5 = Throw VarintIncomplete.
Proof.
  split.
  - apply varintDecode_incomplete; [lia | simpl; lia | repeat constructor; lia].
  - apply varintDecode_incomplete; [lia | simpl; lia | constructor].
Defined.

(* ------------------------------------------------------------------ *)
(** ** The envelope below 2^31 bytes per part *)

Lemma slice_mid (p x q : list Z) (i j : Z) :
  i = Z.of_nat (length p) -> j = i + Z.of_nat (length x) ->
  slice (p ++ x ++ q) i j = x.
Proof.
  intros -> ->. unfold slice. rewrite !length_app.
  rewrite !rel_index_in by lia.
  replace (Z.to_nat (Z.of_nat (length p) + Z.of_nat (length x) - Z.of_nat (length p)))
    with (length x) by lia.
  rewrite Nat2Z.id, skipn_app, skipn_all, Nat.sub_diag, skipn_O. simpl.
  rewrite firstn_app, firstn_all, Nat.sub_diag, firstn_O, app_nil_r. reflexivity.
Qed.

Lemma slice_from_end (p x : list Z) (i : Z) :
  i = Z.of_nat (length p) -> slice_from (p ++ x) i = x.
Proof.
  intros Hi. unfold slice_from. rewrite <- (app_nil_r x) at 1.
  rewrite (slice_mid p x [] i); [reflexivity | exact Hi |].
  rewrite Hi, !length_app. lia.
Qed.

Lemma tag_check (alg : SignatureAlgorithm) :
  negb (ALGORITHM_TO_MULTICODEC alg =? WEBAUTHN_ED25519)
  && negb (ALGORITHM_TO_MULTICODEC alg =? WEBAUTHN_P256) = false.
Proof. destruct alg; reflexivity. Qed.

Lemma getAlgorithm_tag (alg : SignatureAlgorithm) :
  getAlgorithm (ALGORITHM_TO_MULTICODEC alg) = Some alg.
Proof. destruct alg; reflexivity. Qed.

Lemma tag_range (alg : SignatureAlgorithm) : 0 <= ALGORITHM_TO_MULTICODEC alg < 2 ^ 31.
Proof. destruct alg; unfold ALGORITHM_TO_MULTICODEC, WEBAUTHN_ED25519, WEBAUTHN_P256; lia. Qed.

(** Decoding an envelope [tag || La || a || Lc || c || s] whose length
    fields [La] and [Lc] are varints read back as the lengths of [a] and
    [c] wherever they stand. *)
Lemma decode_layout_with (alg : SignatureAlgorithm) (Ea a Ec c s : list Z) :
  (forall pre rest, varintDecode (pre ++ Ea ++ rest) (Z.of_nat (length pre))
                    = Ok (Z.of_nat (length a), Z.of_nat (length Ea))) ->
  (forall pre rest, varintDecode (pre ++ Ec ++ rest) (Z.of_nat (length pre))
                    = Ok (Z.of_nat (length c), Z.of_nat (length Ec))) ->
  decodeWebAuthnVarsig (varintEncode (ALGORITHM_TO_MULTICODEC alg) ++ Ea ++ a ++ Ec ++ c ++ s)
  = (_ <- check_signature_length (Some alg) (Z.of_nat (length s)) ;;
     Ok (mkDecoded (ALGORITHM_TO_MULTICODEC alg) (Some alg) a c s)).
Proof.
  intros HEa HEc.
  set (Em := varintEncode (ALGORITHM_TO_MULTICODEC alg)).
  unfold decodeWebAuthnVarsig.
  assert (H1 : varintDecode (Em ++ Ea ++ a ++ Ec ++ c ++ s) 0
               = Ok (ALGORITHM_TO_MULTICODEC alg, Z.of_nat (length Em)))
    by exact (varint_roundtrip_at [] _ _ (tag_range alg)).
  rewrite H1. cbn [bind]. rewrite tag_check, getAlgorithm_tag, Z.add_0_l.
  rewrite (HEa Em). cbn [bind].
  rewrite !length_app.
  replace (_ <? Z.of_nat (length Em) + Z.of_nat (length Ea) + Z.of_nat (length a))
    with false by (symmetry; apply Z.ltb_ge; lia).
  replace (slice (Em ++ Ea ++ a ++ Ec ++ c ++ s) (Z.of_nat (length Em) + Z.of_nat (length Ea))
             (Z.of_nat (length Em) + Z.of_nat (length Ea) + Z.of_nat (length a))) with a
    by (symmetry; rewrite app_assoc; apply slice_mid; rewrite ?length_app; lia).
  assert (H3 : varintDecode (Em ++ Ea ++ a ++ Ec ++ c ++ s)
                 (Z.of_nat (length Em) + Z.of_nat (length Ea) + Z.of_nat (length a))
               = Ok (Z.of_nat (length c), Z.of_nat (length Ec))).
  { replace (Em ++ Ea ++ a ++ Ec ++ c ++ s) with (((Em ++ Ea) ++ a) ++ Ec ++ (c ++ s))
      by (rewrite !app_assoc; reflexivity).
    replace (Z.of_nat (length Em) + Z.of_nat (length Ea) + Z.of_nat (length a))
      with (Z.of_nat (length ((Em ++ Ea) ++ a))) by (rewrite !length_app; lia).
    apply HEc. }
  rewrite H3. cbn [bind].
  replace (_ <? _ + Z.of_nat (length Ec) + Z.of_nat (length c))
    with false by (symmetry; apply Z.ltb_ge; lia).
  match goal with |- context [slice ?v ?i ?j] =>
    replace (slice v i j) with c
      by (symmetry; rewrite !app_assoc, <- (app_assoc _ c s);
          apply slice_mid; rewrite ?length_app; lia) end.
  match goal with |- context [slice_from ?v ?i] =>
    replace (slice_from v i) with s
      by (symmetry; rewrite !app_assoc; apply slice_from_end; rewrite ?length_app; lia) end.
  reflexivity.
Qed.

(** Decoding an envelope laid out by the encoder, with parts shorter than
    [2^31] bytes: everything is read back and only the signature-length
    check remains. *)
Lemma decode_layout (alg : SignatureAlgorithm) (a c s : list Z) :
  Z.of_nat (length a) < 2 ^ 31 -> Z.of_nat (length c) < 2 ^ 31 ->
  decodeWebAuthnVarsig
    (varintEncode (ALGORITHM_TO_MULTICODEC alg) ++ varintEncode (Z.of_nat (length a))
     ++ a ++ varintEncode (Z.of_nat (length c)) ++ c ++ s)
  = (_ <- check_signature_length (Some alg) (Z.of_nat (length s)) ;;
     Ok (mkDecoded (ALGORITHM_TO_MULTICODEC alg) (Some alg) a c s)).
Proof.
  intros Ha Hc. apply decode_layout_with; intros pre rest; apply varint_roundtrip_at; lia.
Qed.

(** X5: the envelope round trip for parts shorter than [2^31] bytes:
    decoding the encoding of an assertion gives back its algorithm, tag,
    authenticatorData, clientDataJSON and signature when the signature
    length suits the algorithm (64 bytes for Ed25519, 64 to 74 for P-256),
    and throws the signature-length error otherwise. *)
Theorem envelope_roundtrip (assertion : WebAuthnAssertion) (alg : SignatureAlgorithm) :
  Z.of_nat (length (authenticatorData assertion)) < 2 ^ 31 ->
  Z.of_nat (length (clientDataJSON assertion)) < 2 ^ 31 ->
  let n := Z.of_nat (length (signature assertion)) in
  let ok_length := match alg with
                   | Ed25519 => n = 64
                   | P256 => 64 <= n <= 74
                   end in
  (ok_length ->
   (e <- encodeWebAuthnVarsig assertion alg ;; decodeWebAuthnVarsig e)
   = Ok (mkDecoded (ALGORITHM_TO_MULTICODEC alg) (Some alg) (authenticatorData assertion)
           (clientDataJSON assertion) (signature assertion))) /\
  (~ ok_length ->
   (e <- encodeWebAuthnVarsig assertion alg ;; decodeWebAuthnVarsig e)
   = Throw (InvalidSignatureLength alg n)).
Proof.
  intros Ha Hc n ok_length. rewrite encodeWebAuthnVarsig_layout. cbn [bind].
  rewrite decode_layout by assumption. fold n.
  subst ok_length. destruct alg; cbn [check_signature_length].
  - destruct (n =? 64) eqn:E; cbn [negb bind].
    + apply Z.eqb_eq in E. split; [reflexivity | tauto].
    + apply Z.eqb_neq in E. split; [tauto | reflexivity].
  - destruct ((n <? 64) || (74 <? n)) eqn:E; cbn [bind].
    + apply orb_true_iff in E. rewrite Z.ltb_lt, Z.ltb_lt in E.
      split; [lia | reflexivity].
    + apply orb_false_iff in E. rewrite Z.ltb_ge, Z.ltb_ge in E.
      split; [reflexivity | lia].
Qed.

Lemma envelope_roundtrip_witness :
  (e <- encodeWebAuthnVarsig (mkAssertion sample_authData sample_clientData (repeat 7 64)) Ed25519 ;;
   decodeWebAuthnVarsig e)
  = Ok (mkDecoded WEBAUTHN_ED25519 (Some Ed25519) sample_authData sample_clientData (repeat 7 64)) /\
  (e <- encodeWebAuthnVarsig (mkAssertion sample_authData sample_clientData (repeat 7 75)) P256 ;;
   decodeWebAuthnVarsig e)
  = Throw (InvalidSignatureLength P256 75).
Proof.
  split.
  - apply (envelope_roundtrip (mkAssertion sample_authData sample_clientData (repeat 7 64)) Ed25519);
      vm_compute; try reflexivity.
  - apply (envelope_roundtrip (mkAssertion sample_authData sample_clientData (repeat 7 75)) P256);
      [vm_compute; reflexivity | vm_compute; reflexivity |].
    cbv zeta. simpl length. lia.
Defined.

(** X6: an envelope whose leading varint is a value in [0, 2^31) other
    than the two WebAuthn tags 0x2ed1 and 0x2256 (for instance the Ed25519
    public-key code 0xed) is rejected with 'Unsupported multicodec',
    whatever follows it. *)
Theorem decode_unsupported_multicodec (m : Z) (rest : list Z) :
  0 <= m < 2 ^ 31 -> m <> WEBAUTHN_ED25519 -> m <> WEBAUTHN_P256 ->
  decodeWebAuthnVarsig (varintEncode m ++ rest) = Throw (UnsupportedMulticodec m).
Proof.
  intros Hm H1 H2. unfold decodeWebAuthnVarsig.
  rewrite (varint_roundtrip_at [] rest m Hm
            : varintDecode (varintEncode m ++ rest) 0 = _). cbn [bind].
  apply Z.eqb_neq in H1, H2. rewrite H1, H2. reflexivity.
Qed.

Lemma decode_unsupported_multicodec_witness :
  decodeWebAuthnVarsig (varintEncode 237 ++ repeat 0 40) = Throw (UnsupportedMulticodec 237).
Proof.
  apply decode_unsupported_multicodec; unfold WEBAUTHN_ED25519, WEBAUTHN_P256; lia.
Defined.

Lemma slice_from_suffix (v : list Z) (o : Z) : exists p, v = p ++ slice_from v o.
Proof.
  unfold slice_from, slice.
  set (k := rel_index (Z.of_nat (length v)) o).
  pose proof (rel_index_range (Z.of_nat (length v)) o ltac:(lia)) as Hk. fold k in Hk.
  rewrite (rel_index_in _ (Z.of_nat (length v))) by lia.
  rewrite firstn_all2 by (rewrite length_skipn; lia).
  exists (firstn (Z.to_nat k) v). symmetry. apply firstn_skipn.
Qed.

(** X7: what a successful decode returns is consistent: its algorithm is
    [getAlgorithm] of its tag, one of Ed25519 and P-256, and the tag is that
    algorithm's code; its signature is a suffix of the envelope (the bytes
    that follow the clientDataJSON). *)
Theorem decode_result_consistent (v : list Z) (r : DecodedVarsig) :
  decodeWebAuthnVarsig v = Ok r ->
  dec_algorithm r = getAlgorithm (dec_multicodec r) /\
  (exists alg, dec_algorithm r = Some alg /\
               ALGORITHM_TO_MULTICODEC alg = dec_multicodec r) /\
  (exists p, v = p ++ dec_signature r).
Proof.
  intros H. apply decode_ok_shape in H.
  destruct H as (m & l1 & la & l2 & lc & l3 & _ & Hm & _ & _ & _ & _ & _ & ->).
  cbn [dec_algorithm dec_multicodec dec_signature].
  split; [reflexivity|]. split; [|apply slice_from_suffix].
  destruct Hm as [-> | ->]; [exists Ed25519 | exists P256]; split; reflexivity.
Qed.

Lemma decode_result_consistent_witness :
  decodeWebAuthnVarsig (ed_envelope (repeat 7 64))
  = Ok (mkDecoded WEBAUTHN_ED25519 (Some Ed25519) sample_authData sample_clientData (repeat 7 64)) /\
  dec_algorithm (mkDecoded WEBAUTHN_ED25519 (Some Ed25519) sample_authData sample_clientData (repeat 7 64))
  = getAlgorithm WEBAUTHN_ED25519.
Proof.
  assert (H : decodeWebAuthnVarsig (ed_envelope (repeat 7 64))
              = Ok (mkDecoded WEBAUTHN_ED25519 (Some Ed25519) sample_authData sample_clientData
                      (repeat 7 64))) by (vm_compute; reflexivity).
  split; [exact H | exact (proj1 (decode_result_consistent _ _ H))].
Defined.

(* ------------------------------------------------------------------ *)
(** ** Multicodec tables, concat, bytesEqual *)

(** X8: [isWebAuthnMulticodec m] holds exactly when [getAlgorithm m] finds
    an algorithm, and [getAlgorithm] and [ALGORITHM_TO_MULTICODEC] are
    inverse tables: [getAlgorithm m = alg] iff [m] is the code of [alg]. *)
Theorem multicodec_tables (m : Z) :
  (isWebAuthnMulticodec m = true <-> getAlgorithm m <> None) /\
  (forall alg, getAlgorithm m = Some alg <-> ALGORITHM_TO_MULTICODEC alg = m).
Proof.
  unfold isWebAuthnMulticodec, getAlgorithm.
  destruct (m =? WEBAUTHN_ED25519) eqn:E1; [|destruct (m =? WEBAUTHN_P256) eqn:E2].
  - apply Z.eqb_eq in E1. subst m. split; [split; [discriminate | reflexivity]|].
    intros []; split; (reflexivity || discriminate || (intros H; injection H; discriminate)).
  - apply Z.eqb_eq in E2. subst m. split; [split; [discriminate | reflexivity]|].
    intros []; split; (reflexivity || discriminate || (intros H; injection H; discriminate)).
  - split; [split; [discriminate | tauto]|].
    apply Z.eqb_neq in E1, E2.
    intros []; split; (discriminate || (cbn; intros H; congruence)).
Qed.

(** X9: [concat] never throws and returns the arrays joined in order. *)
Theorem concat_joins (arrays : list (list Z)) : concat arrays = Ok (List.concat arrays).
Proof. exact (concat_spec arrays). Qed.

Lemma bytesEqual_loop (a b : list Z) :
  length a = length b ->
  (fix loop (a b : list Z) : bool :=
     match a, b with
     | x :: a', y :: b' => if negb (x =? y) then false else loop a' b'
     | _, _ => true
     end) a b = true <-> a = b.
Proof.
  revert b. induction a as [|x a IH]; intros [|y b] Hl; simpl in Hl; try discriminate.
  - split; reflexivity.
  - destruct (x =? y) eqn:E; cbn [negb].
    + apply Z.eqb_eq in E. subst y. rewrite IH by lia.
      split; [intros -> | intros H; injection H]; auto.
    + apply Z.eqb_neq in E. split; [discriminate | intros H; injection H; contradiction].
Qed.

Lemma bytesEqual_spec (a b : list Z) : bytesEqual a b = true <-> a = b.
Proof.
  unfold bytesEqual. destruct (Nat.eqb (length a) (length b)) eqn:E; cbn [negb].
  - apply Nat.eqb_eq in E. apply bytesEqual_loop, E.
  - apply Nat.eqb_neq in E. split; [discriminate | intros ->; contradiction].
Qed.

(** X10: [bytesEqual a b] is [true] exactly when the two arrays are equal
    (same length, same bytes in order). *)
Theorem bytesEqual_iff (a b : list Z) : bytesEqual a b = true <-> a = b.
Proof. exact (bytesEqual_spec a b). Qed.

(* ------------------------------------------------------------------ *)
(** ** The base64url helpers *)

(** [btoa] of bytes, with the length of its body: [4n/3] rounded up. *)
Lemma b64_encode_body (l : list Z) :
  Forall (fun x => 0 <= x < 256) l ->
  exists body p,
    b64_encode l = body ++ repeat 61 p /\ (p <= 2)%nat /\
    ((length body + p) mod 4 = 0)%nat /\
    Forall (fun c => is_b64_char c = true) body /\
    b64_decode_loop body 0 0 = l /\
    length body = ((4 * length l + 2) / 3)%nat.
Proof.
  induction l as [l IH] using (induction_ltof1 _ (@length Z)); unfold ltof in IH.
  intros Hl.
  destruct l as [|a [|b [|c rest]]].
  - exists [], O. repeat split; auto.
  - inversion Hl as [|? ? Ha _]; subst.
    exists [b64_char (a / 4); b64_char (a mod 4 * 16)], 2%nat.
    split; [reflexivity|]. split; [lia|]. split; [reflexivity|]. split; [|split; [|reflexivity]].
    + repeat constructor; apply b64_char_valid; Z.div_mod_to_equations; lia.
    + cbn [b64_decode_loop Nat.add Nat.eqb].
      rewrite !b64_index_char by (Z.div_mod_to_equations; lia).
      f_equal. Z.div_mod_to_equations; lia.
  - inversion Hl as [|? ? Ha Hl']; inversion Hl' as [|? ? Hb _]; subst.
    exists [b64_char (a / 4); b64_char (a mod 4 * 16 + b / 16); b64_char (b mod 16 * 4)], 1%nat.
    split; [reflexivity|]. split; [lia|]. split; [reflexivity|]. split; [|split; [|reflexivity]].
    + repeat constructor; apply b64_char_valid; Z.div_mod_to_equations; lia.
    + cbn [b64_decode_loop Nat.add Nat.eqb].
      rewrite !b64_index_char by (Z.div_mod_to_equations; lia).
      assert (E : ((0 * 64 + a / 4) * 64 + (a mod 4 * 16 + b / 16)) * 64 + b mod 16 * 4
                  = a * 1024 + b * 4) by (Z.div_mod_to_equations; lia).
      rewrite E. f_equal; [|f_equal]; Z.div_mod_to_equations; lia.
  - inversion Hl as [|? ? Ha Hl']; inversion Hl' as [|? ? Hb Hl'']; inversion Hl'' as [|? ? Hc Hr];
      subst.
    destruct (IH rest ltac:(simpl; lia) Hr) as (body & p & Henc & Hp & Hlen & Hbody & Hdec & Hbl).
    exists ([b64_char (a / 4); b64_char (a mod 4 * 16 + b / 16);
             b64_char (b mod 16 * 4 + c / 64); b64_char (c mod 64)] ++ body), p.
    split; [|split; [exact Hp|split; [|split; [|split]]]].
    + cbn [b64_encode]. rewrite Henc. apply app_assoc.
    + rewrite length_app. cbn [length].
      replace (4 + length body + p)%nat with (1 * 4 + (length body + p))%nat by lia.
      rewrite Nat.add_comm, Nat.Div0.mod_add. exact Hlen.
    + apply Forall_app. split; [|exact Hbody].
      repeat constructor; apply b64_char_valid; Z.div_mod_to_equations; lia.
    + cbn [app b64_decode_loop Nat.add Nat.eqb]. rewrite Hdec.
      rewrite !b64_index_char by (Z.div_mod_to_equations; lia).
      assert (E : ((((0 * 64 + a / 4) * 64 + (a mod 4 * 16 + b / 16)) * 64
                    + (b mod 16 * 4 + c / 64)) * 64 + c mod 64)
                  = a * 65536 + b * 256 + c) by (Z.div_mod_to_equations; lia).
      rewrite E. cbn [app]. f_equal; [|f_equal; [|f_equal]]; Z.div_mod_to_equations; lia.
    + rewrite length_app, Hbl. cbn [length].
      replace (4 * S (S (S (length rest))) + 2)%nat with (4 * length rest + 2 + 4 * 3)%nat
        by lia.
      rewrite Nat.div_add by lia. lia.
Qed.

Lemma b64_url_char_swap (c : Z) :
  is_b64_char c = true ->
  is_b64url_char (if (if c =? 43 then 45 else c) =? 47 then 95 else (if c =? 43 then 45 else c)).
Proof.
  unfold is_b64_char, is_b64url_char. intros H.
  repeat rewrite orb_true_iff in H. repeat rewrite andb_true_iff in H.
  repeat rewrite Z.leb_le in H. repeat rewrite Z.eqb_eq in H.
  destruct (Z.eqb_spec c 43) as [->|N43]; [cbn; lia|].
  destruct (Z.eqb_spec c 47) as [->|N47]; [cbn; lia|]. lia.
Qed.

(** [bytesToBase64url] and [base64urlToBytes] on bytes: the text, its
    alphabet and its length, and the way back. *)
Lemma b64url_text (b : list Z) :
  Forall (fun x => 0 <= x < 256) b ->
  exists t, bytesToBase64url b = Ok t /\ base64urlToBytes t = Ok b /\
            Forall is_b64url_char t /\ length t = ((4 * length b + 2) / 3)%nat.
Proof.
  intros Hb.
  destruct (b64_encode_body b Hb) as (body & p & Henc & Hp & Hlen & Hbody & Hdec & Hbl).
  set (h := fun x : Z => if (if x =? 43 then 45 else x) =? 47 then 95
                         else (if x =? 43 then 45 else x)).
  assert (Hh : forall x, In x body ->
            h x <> 43 /\ h x <> 47 /\ h x <> 61 /\ is_ascii_whitespace (h x) = false /\
            (if (if h x =? 45 then 43 else h x) =? 95 then 47
             else (if h x =? 45 then 43 else h x)) = x).
  { intros x Hx. apply b64_url_chars. rewrite Forall_forall in Hbody. auto. }
  exists (map h body). split; [|split; [|split]].
  - unfold bytesToBase64url, btoa.
    replace (forallb (fun c => (0 <=? c) && (c <=? 255)) b) with true.
    2:{ symmetry. apply forallb_forall. intros x Hx. rewrite Forall_forall in Hb.
        destruct (Hb x Hx). apply andb_true_iff; split; apply Z.leb_le; lia. }
    cbn [bind]. rewrite Henc, !replace_all_single, map_map, map_app, map_repeat.
    cbn -[map]. rewrite replace_all_app, replace_all_repeat, app_nil_r.
    f_equal. apply replace_all_absent. apply Forall_forall. intros x Hx.
    apply in_map_iff in Hx as (y & <- & Hy). apply (Hh y Hy).
  - unfold base64urlToBytes.
    rewrite !replace_all_single, !map_map.
    rewrite (map_ext_in _ (fun x => x)) by (intros x Hx; apply (Hh x Hx)).
    rewrite map_id.
    replace ((4 - length body mod 4) mod 4)%nat with p.
    2:{ symmetry. apply (pad_count _ _ Hp Hlen). }
    unfold atob. cbv zeta.
    assert (Hnw : Forall (fun c => negb (is_ascii_whitespace c) = true) (body ++ repeat 61 p)).
    { apply Forall_app. split.
      - apply Forall_forall. intros x Hx. rewrite Forall_forall in Hbody.
        destruct (b64_char_not_special x (Hbody x Hx)) as (_ & _ & _ & ->). reflexivity.
      - apply Forall_forall. intros x Hx. apply repeat_spec in Hx as ->. reflexivity. }
    rewrite (filter_all _ _ Hnw).
    replace (Nat.eqb (length (body ++ repeat 61 p) mod 4) 0) with true
      by (rewrite length_app, repeat_length; symmetry; apply Nat.eqb_eq; exact Hlen).
    rewrite strip_padding_body; [|exact Hp|].
    2:{ apply Forall_forall. intros x Hx. rewrite Forall_forall in Hbody.
        apply (b64_char_not_special x (Hbody x Hx)). }
    replace (Nat.eqb (length body mod 4) 1) with false.
    2:{ symmetry. apply Nat.eqb_neq. apply (pad_count _ _ Hp Hlen). }
    replace (forallb is_b64_char body) with true
      by (symmetry; apply forallb_forall; apply Forall_forall; exact Hbody).
    cbn [negb bind]. rewrite Hdec. f_equal.
    rewrite <- (map_id b) at 2. apply map_ext_in. intros x Hx.
    rewrite Forall_forall in Hb. apply Z.mod_small. apply Hb, Hx.
  - apply Forall_map. apply (Forall_impl _ b64_url_char_swap Hbody).
  - rewrite length_map. exact Hbl.
Qed.

(** X11: for bytes [b], [bytesToBase64url b] is unpadded base64url: only
    the characters [A-Z a-z 0-9 - _], and [ceil(4n/3)] of them for [n]
    bytes. *)
Theorem bytesToBase64url_shape (b : list Z) :
  Forall (fun x => 0 <= x < 256) b ->
  exists t, bytesToBase64url b = Ok t /\
            Forall is_b64url_char t /\ length t = ((4 * length b + 2) / 3)%nat.
Proof.
  intros Hb. destruct (b64url_text b Hb) as (t & H1 & _ & H3 & H4). eauto.
Qed.

Lemma bytesToBase64url_shape_witness :
  bytesToBase64url [1; 2; 3; 4; 5; 255; 254] = Ok (js_str "AQIDBAX__g") /\
  length (js_str "AQIDBAX__g") = ((4 * 7 + 2) / 3)%nat.
Proof.
  assert (Hb : Forall (fun x => 0 <= x < 256) [1; 2; 3; 4; 5; 255; 254])
    by (repeat constructor; lia).
  destruct (bytesToBase64url_shape _ Hb) as (t & E1 & _ & E3).
  assert (Ht : t = js_str "AQIDBAX__g")
    by (vm_compute in E1; injection E1 as <-; reflexivity).
  subst t. split; [exact E1 | exact E3].
Defined.

(** X12: [base64urlToBytes] throws [InvalidCharacterError] on every text
    without ASCII whitespace whose length is 1 modulo 4 (no byte string
    has such an encoding). *)
Theorem base64urlToBytes_length_1_mod_4 (t : list Z) :
  Forall (fun c => is_ascii_whitespace c = false) t -> (length t mod 4 = 1)%nat ->
  base64urlToBytes t = Throw InvalidCharacterError.
Proof.
  intros Hw Hl. unfold base64urlToBytes.
  rewrite !replace_all_single, map_map.
  set (f := fun x : Z => if (if x =? 45 then 43 else x) =? 95 then 47
                         else (if x =? 45 then 43 else x)).
  rewrite length_map, Hl. change (repeat 61 ((4 - 1) mod 4)) with [61; 61; 61].
  unfold atob. cbv zeta.
  assert (Hf : Forall (fun c => negb (is_ascii_whitespace c) = true) (map f t ++ [61; 61; 61])).
  { apply Forall_app. split; [|repeat constructor].
    apply Forall_map. apply (Forall_impl _ (P := fun c => is_ascii_whitespace c = false));
      [|exact Hw].
    intros x Hx. unfold f.
    destruct (Z.eqb_spec x 45) as [->|]; [reflexivity|].
    destruct (Z.eqb_spec x 95) as [->|]; [reflexivity|]. rewrite Hx. reflexivity. }
  rewrite (filter_all _ _ Hf).
  replace (Nat.eqb (length (map f t ++ [61; 61; 61]) mod 4) 0) with true.
  2:{ symmetry. apply Nat.eqb_eq. rewrite length_app, length_map. cbn [length].
      rewrite Nat.Div0.add_mod, Hl. reflexivity. }
  unfold strip_padding. rewrite rev_app_distr. cbn [rev app].
  rewrite rev_involutive.
  replace (Nat.eqb (length (map f t ++ [61]) mod 4) 1) with false.
  2:{ symmetry. apply Nat.eqb_neq. rewrite length_app, length_map. cbn [length].
      rewrite Nat.Div0.add_mod, Hl. discriminate. }
  replace (forallb is_b64_char (map f t ++ [61])) with false.
  2:{ symmetry. rewrite forallb_app. cbn. apply andb_false_r. }
  reflexivity.
Qed.

Lemma base64urlToBytes_length_1_mod_4_witness :
  base64urlToBytes (js_str "AQIDB") = Throw InvalidCharacterError.
Proof.
  apply base64urlToBytes_length_1_mod_4; [repeat constructor | reflexivity].
Defined.

(** X13: [base64urlToBytes] also accepts standard base64: writing [+] for
    [-] or [/] for [_] anywhere in its input does not change its result. *)
Theorem base64urlToBytes_standard_alphabet (t : list Z) :
  base64urlToBytes (replace_all 47 [95] (replace_all 43 [45] t)) = base64urlToBytes t.
Proof.
  unfold base64urlToBytes.
  assert (E : replace_all 95 [47] (replace_all 45 [43]
                (replace_all 47 [95] (replace_all 43 [45] t)))
              = replace_all 95 [47] (replace_all 45 [43] t)).
  { rewrite !replace_all_single, !map_map. apply map_ext. intros x.
    destruct (Z.eqb_spec x 43) as [->|N43]; [reflexivity|].
    destruct (Z.eqb_spec x 47) as [->|N47]; [reflexivity|].
    reflexivity. }
  rewrite E. reflexivity.
Qed.

(* ------------------------------------------------------------------ *)
(** ** What a valid verification result guarantees *)

Lemma zlist_eqb_eq (a b : list Z) : zlist_eqb a b = true -> a = b.
Proof.
  revert b. induction a as [|x a IH]; intros [|y b]; cbn; try discriminate; [reflexivity|].
  intros H. apply andb_true_iff in H as [H1 H2]. apply Z.eqb_eq in H1. subst.
  f_equal. apply IH, H2.
Qed.

Lemma js_str_eq_true (v : option json) (s : list Z) :
  js_str_eq v s = true -> v = Some (JStr s).
Proof.
  destruct v as [[]|]; cbn; try discriminate. intros H. apply zlist_eqb_eq in H. congruence.
Qed.

Section VerifierExtras.

Variable JSON_parse : list Z -> Exn json.

(** X14: a result of [verifyWebAuthnAssertion] with [valid = true] means
    that the clientDataJSON parsed to data of type [webauthn.get], with the
    expected origin and a challenge that decodes to the expected bytes, and
    that the authenticatorData has at least 37 bytes with the UP flag (bit
    0x01 of byte 32) set, and also the UV flag (0x04) unless
    [requireUserVerification] is [false]. *)
Theorem verify_valid_sound decoded options r :
  verifyWebAuthnAssertion JSON_parse decoded options = Ok r -> valid r = true ->
  exists cd, parseClientDataJSON JSON_parse (dec_clientDataJSON decoded) = Ok cd /\
    cd_type cd = Some (JStr (js_str "webauthn.get")) /\
    cd_origin cd = Some (JStr (expectedOrigin options)) /\
    challenge_bytes (cd_challenge cd) = Ok (expectedChallenge options) /\
    (37 <= length (dec_authenticatorData decoded))%nat /\
    Z.land (nth 32 (dec_authenticatorData decoded) 0) 1 <> 0 /\
    (requireUserVerification options = Some false \/
     Z.land (nth 32 (dec_authenticatorData decoded) 0) 4 <> 0).
Proof.
  intros H Hv. unfold verifyWebAuthnAssertion in H.
  destruct (verify_body JSON_parse decoded options) as [r'|e] eqn:E; cbn [js_try] in H;
    [|injection H as <-; discriminate].
  injection H as ->. unfold verify_body in E.
  destruct (parseClientDataJSON JSON_parse (dec_clientDataJSON decoded)) as [cd|e] eqn:Ep;
    cbn [bind] in E; [|discriminate].
  exists cd. split; [reflexivity|].
  destruct (js_str_eq (cd_type cd) (js_str "webauthn.get")) eqn:Et; cbn [negb] in E;
    [|destruct (template_string (cd_type cd)); cbn [bind] in E;
      [injection E as <-; discriminate | discriminate]].
  destruct (js_str_eq (cd_origin cd) (expectedOrigin options)) eqn:Eo; cbn [negb] in E;
    [|destruct (template_string (cd_origin cd)); cbn [bind] in E;
      [injection E as <-; discriminate | discriminate]].
  destruct (challenge_bytes (cd_challenge cd)) as [ch|e] eqn:Ec; cbn [bind] in E;
    [|discriminate].
  destruct (bytesEqual ch (expectedChallenge options)) eqn:Eb; cbn [negb] in E;
    [|injection E as <-; discriminate].
  apply bytesEqual_spec in Eb. subst ch.
  cbv zeta in E.
  destruct (Z.of_nat (length (dec_authenticatorData decoded)) <? 37) eqn:El;
    [injection E as <-; discriminate|].
  apply Z.ltb_ge in El.
  destruct (Z.land (nth 32 (dec_authenticatorData decoded) 0) 1 =? 0) eqn:Eu; cbn [negb] in E;
    [injection E as <-; discriminate|].
  apply Z.eqb_neq in Eu.
  split; [apply js_str_eq_true, Et|]. split; [apply js_str_eq_true, Eo|].
  split; [reflexivity|]. split; [lia|]. split; [exact Eu|].
  destruct (requireUserVerification options) as [[|]|]; [right| left; reflexivity | right];
    (destruct (Z.land (nth 32 (dec_authenticatorData decoded) 0) 4 =? 0) eqn:Ev;
     [cbn in E; injection E as <-; discriminate | apply Z.eqb_neq, Ev]).
Qed.

(** X15: once the ceremony type and the origin match, a challenge that
    [base64urlToBytes] cannot handle (a missing or non-string challenge, or
    a malformed base64url text) is reported as a returned
    'Verification failed: ..' result, never thrown. *)
Theorem verify_bad_challenge decoded options cd e :
  parseClientDataJSON JSON_parse (dec_clientDataJSON decoded) = Ok cd ->
  js_str_eq (cd_type cd) (js_str "webauthn.get") = true ->
  js_str_eq (cd_origin cd) (expectedOrigin options) = true ->
  challenge_bytes (cd_challenge cd) = Throw e ->
  verifyWebAuthnAssertion JSON_parse decoded options = Ok (failure (ErrVerificationFailed e)).
Proof.
  intros Hp Ht Ho Hc. unfold verifyWebAuthnAssertion, verify_body.
  rewrite Hp. cbn [bind]. rewrite Ht, Ho. cbn [negb]. rewrite Hc. reflexivity.
Qed.

(** X16: the structural verification never looks at the signature, the
    multicodec or the algorithm of the decoded envelope: replacing them
    leaves the result unchanged, so a valid result says nothing about the
    signature bytes. *)
Theorem verify_ignores_signature decoded options m alg sig :
  verifyWebAuthnAssertion JSON_parse
    (mkDecoded m alg (dec_authenticatorData decoded) (dec_clientDataJSON decoded) sig) options
  = verifyWebAuthnAssertion JSON_parse decoded options.
Proof. destruct decoded. reflexivity. Qed.

End VerifierExtras.

Lemma verify_bad_challenge_witness :
  verifyWebAuthnAssertion
    (fun _ => Ok (JObj [(js_str "type", JStr (js_str "webauthn.get"));
                        (js_str "origin", JStr (js_str "https://example.com"))]))
    (sample_decoded sample_authData) (sample_options None)
  = Ok (failure (ErrVerificationFailed TypeError)).
Proof.
  apply (verify_bad_challenge _ _ _
           (mkClientData (Some (JStr (js_str "webauthn.get"))) None
                         (Some (JStr (js_str "https://example.com"))) None));
    vm_compute; reflexivity.
Defined.

(* ------------------------------------------------------------------ *)
(** ** reconstructSignedData, validateWebAuthnAssertion *)

Lemma reconstructSignedData_eq (sha256 : list Z -> list Z) (decoded : DecodedVarsig) :
  reconstructSignedData sha256 decoded
  = Ok (dec_authenticatorData decoded ++ sha256 (dec_clientDataJSON decoded)).
Proof.
  unfold reconstructSignedData. cbv zeta.
  set (a := dec_authenticatorData decoded).
  set (h := sha256 (dec_clientDataJSON decoded)).
  rewrite (typed_set_fill [] a (length h)
            : typed_set (repeat 0 (length a + length h)) a 0 = Ok (a ++ repeat 0 (length h))).
  cbn [bind].
  rewrite <- (Nat.add_0_r (length h)), (typed_set_fill a h 0). cbn [bind repeat].
  rewrite app_nil_r. reflexivity.
Qed.

(** X17: [reconstructSignedData] never throws and returns the
    authenticatorData followed by the SHA-256 digest of the clientDataJSON,
    the byte string a WebAuthn signature covers. *)
Theorem reconstructSignedData_spec (sha256 : list Z -> list Z) (decoded : DecodedVarsig) :
  reconstructSignedData sha256 decoded
  = Ok (dec_authenticatorData decoded ++ sha256 (dec_clientDataJSON decoded)).
Proof. exact (reconstructSignedData_eq sha256 decoded). Qed.

(** X18: [validateWebAuthnAssertion] accepts signatures the decoder later
    rejects.  For a validated assertion with parts shorter than [2^31]
    bytes, the encoded envelope decodes for Ed25519 exactly when the
    signature has 64 bytes, and for P-256 exactly when it has at most 74
    bytes. *)
Theorem validate_then_decode (assertion : WebAuthnAssertion) :
  validateWebAuthnAssertion assertion = None ->
  Z.of_nat (length (authenticatorData assertion)) < 2 ^ 31 ->
  Z.of_nat (length (clientDataJSON assertion)) < 2 ^ 31 ->
  ((exists r, (e <- encodeWebAuthnVarsig assertion Ed25519 ;; decodeWebAuthnVarsig e) = Ok r)
     <-> length (signature assertion) = 64%nat) /\
  ((exists r, (e <- encodeWebAuthnVarsig assertion P256 ;; decodeWebAuthnVarsig e) = Ok r)
     <-> (length (signature assertion) <= 74)%nat).
Proof.
  intros Hv Ha Hc.
  assert (Hs : (64 <= length (signature assertion))%nat).
  { unfold validateWebAuthnAssertion in Hv.
    destruct (Nat.eqb (length (authenticatorData assertion)) 0); [discriminate|].
    destruct (Nat.eqb (length (clientDataJSON assertion)) 0); [discriminate|].
    destruct (Nat.eqb (length (signature assertion)) 0); [discriminate|].
    destruct (Z.of_nat (length (signature assertion)) <? 64) eqn:E; [discriminate|].
    apply Z.ltb_ge in E. lia. }
  rewrite !encodeWebAuthnVarsig_layout. cbn [bind]. rewrite !decode_layout by assumption.
  cbn [check_signature_length].
  split.
  - destruct (Z.of_nat (length (signature assertion)) =? 64) eqn:E; cbn [negb bind].
    + apply Z.eqb_eq in E. split; [lia | eauto].
    + apply Z.eqb_neq in E. split; [intros [r H]; discriminate | lia].
  - destruct ((Z.of_nat (length (signature assertion)) <? 64)
              || (74 <? Z.of_nat (length (signature assertion)))) eqn:E; cbn [bind].
    + apply orb_true_iff in E. rewrite !Z.ltb_lt in E.
      split; [intros [r H]; discriminate | lia].
    + apply orb_false_iff in E. rewrite !Z.ltb_ge in E. split; [lia | eauto].
Qed.

Lemma validate_then_decode_witness :
  validateWebAuthnAssertion (mkAssertion sample_authData sample_clientData (repeat 7 80)) = None /\
  ~ (exists r, (e <- encodeWebAuthnVarsig (mkAssertion sample_authData sample_clientData (repeat 7 80)) P256 ;;
                decodeWebAuthnVarsig e) = Ok r).
Proof.
  assert (Hv : validateWebAuthnAssertion
                 (mkAssertion sample_authData sample_clientData (repeat 7 80)) = None)
    by reflexivity.
  split; [exact Hv|].
  destruct (validate_then_decode _ Hv ltac:(vm_compute; reflexivity)
              ltac:(vm_compute; reflexivity)) as [_ [H _]].
  intros Hr. apply H in Hr. cbn [signature] in Hr. rewrite repeat_length in Hr. lia.
Defined.

(* ------------------------------------------------------------------ *)
(** ** verifyHardwareDelegation *)

Lemma is_b64url_char_not_ws (c : Z) : is_b64url_char c -> is_js_whitespace c = false.
Proof.
  unfold is_b64url_char, is_js_whitespace. intros H.
  destruct (_ || _) eqn:E; [|reflexivity]. exfalso.
  repeat rewrite orb_true_iff in E. repeat rewrite andb_true_iff in E.
  repeat rewrite Z.eqb_eq in E. repeat rewrite Z.leb_le in E. lia.
Qed.

Lemma drop_leading_ws_id (l : list Z) :
  Forall (fun c => is_js_whitespace c = false) l -> drop_leading_ws l = l.
Proof. destruct 1 as [|c l Hc _]; [reflexivity|]. cbn. rewrite Hc. reflexivity. Qed.

Lemma js_trim_id (l : list Z) :
  Forall (fun c => is_js_whitespace c = false) l -> js_trim l = l.
Proof.
  intros H. unfold js_trim. rewrite (drop_leading_ws_id l H).
  rewrite drop_leading_ws_id by (apply Forall_rev, H). apply rev_involutive.
Qed.

Lemma verifyWebAuthnAssertion_ok JSON_parse decoded options :
  exists r, verifyWebAuthnAssertion JSON_parse decoded options = Ok r.
Proof.
  unfold verifyWebAuthnAssertion.
  destruct (verify_body JSON_parse decoded options); cbn [js_try]; eauto.
Qed.

Section HardwareDelegationProofs.

Variable JSON_parse : list Z -> Exn json.
Variable sha256 : list Z -> list Z.
Variable subtle_verify_ed25519 : list Z -> list Z -> list Z -> Exn bool.
Variable extract : list Z -> Exn ExtractResult.

Let verifyHD := verifyHardwareDelegation JSON_parse sha256 subtle_verify_ed25519 extract.
Let checkHD := hw_check_delegation JSON_parse sha256 subtle_verify_ed25519 extract.

Lemma hw_proof_token (carBytes : list Z) (expectedOrigin : list Z) :
  Forall (fun x => 0 <= x < 256) carBytes ->
  exists proof, createHardwareDelegation_proof carBytes = Ok proof /\
    verifyHD proof expectedOrigin
    = js_try (checkHD carBytes expectedOrigin)
        (fun error => Ok (hw_failure (HwVerificationError error))).
Proof.
  intros Hb. destruct (b64url_text carBytes Hb) as (t & H1 & H2 & H3 & _).
  exists (js_str "u" ++ t). split.
  - unfold createHardwareDelegation_proof. unfold bytesToBase64url in H1.
    destruct (btoa carBytes); cbn [bind] in H1 |- *; [|discriminate].
    injection H1 as <-. reflexivity.
  - subst verifyHD checkHD. unfold verifyHardwareDelegation.
    rewrite js_trim_id.
    2:{ constructor; [reflexivity|].
        apply (Forall_impl _ is_b64url_char_not_ws H3). }
    change (starts_with (js_str "u" ++ t) (js_str "u")) with true. cbn [orb].
    change (skipn 1 (js_str "u" ++ t)) with t.
    unfold base64urlToBytes in H2. cbv zeta in H2 |- *.
    destruct (atob _) as [bs|e]; cbn [bind] in H2 |- *; [|discriminate].
    injection H2 as ->. reflexivity.
Qed.

(** X19: the token round trip of the two halves of part_005: the proof
    text [createHardwareDelegation] builds from the CAR bytes ([u] and
    unpadded base64url) is decoded by [verifyHardwareDelegation] back to
    exactly those bytes, which it hands to [extract]; the rest of the
    verification, inside the outer [try], starts from there. *)
Theorem hardware_proof_roundtrip (carBytes : list Z) (expectedOrigin : list Z) :
  Forall (fun x => 0 <= x < 256) carBytes ->
  exists proof, createHardwareDelegation_proof carBytes = Ok proof /\
    verifyHardwareDelegation JSON_parse sha256 subtle_verify_ed25519 extract proof expectedOrigin
    = js_try (hw_check_delegation JSON_parse sha256 subtle_verify_ed25519 extract
                carBytes expectedOrigin)
        (fun error => Ok (hw_failure (HwVerificationError error))).
Proof. exact (hw_proof_token carBytes expectedOrigin). Qed.

(** X20: [verifyHardwareDelegation] accepts a delegation whose signature is
    not a WebAuthn varsig: when [decodeWebAuthnVarsig] throws on the
    signature of the extracted delegation (e.g. an ordinary Ed25519
    signature, or no signature), the inner [catch] returns
    [valid: true] with the issuer and audience DIDs, for every expected
    origin, with no WebAuthn, challenge or signature check. *)
Theorem hardware_accepts_non_varsig (carBytes expectedOrigin : list Z) (d : Delegation) e :
  Forall (fun x => 0 <= x < 256) carBytes ->
  extract carBytes = Ok (ExtractOk d) ->
  decodeWebAuthnVarsig (del_signature d) = Throw e ->
  exists proof, createHardwareDelegation_proof carBytes = Ok proof /\
    verifyHardwareDelegation JSON_parse sha256 subtle_verify_ed25519 extract proof expectedOrigin
    = Ok (mkHw true None (Some (del_issuer d)) (Some (del_audience d))).
Proof.
  intros Hb Hx Hd. destruct (hw_proof_token carBytes expectedOrigin Hb) as (p & Hp & Hv).
  exists p. split; [exact Hp|]. subst verifyHD checkHD. rewrite Hv.
  unfold hw_check_delegation. rewrite Hx. cbn [bind delegation_signature]. rewrite Hd.
  reflexivity.
Qed.

(** X21: when the signature is a WebAuthn varsig that passes the
    structural checks (with the SHA-256 of the payload bytes as the
    challenge and user verification required) but the issuer DID is not a
    base58btc did:key ([extractPublicKeyFromDid] throws), the inner [catch]
    returns [valid: true]: the Ed25519 signature is never checked.  (When
    computing the payload bytes throws, the same [catch] gives the same
    result.) *)
Theorem hardware_accepts_unusable_issuer (tokenBytes expectedOrigin : list Z) (d : Delegation)
    decoded vr e :
  extract tokenBytes = Ok (ExtractOk d) ->
  decodeWebAuthnVarsig (del_signature d) = Ok decoded ->
  (forall payloadBytes, del_payload d = Ok payloadBytes ->
     verifyWebAuthnAssertion JSON_parse decoded
       (mkOptions expectedOrigin (sha256 payloadBytes) (Some true)) = Ok vr) ->
  valid vr = true ->
  extractPublicKeyFromDid (del_issuer d) = Throw e ->
  hw_check_delegation JSON_parse sha256 subtle_verify_ed25519 extract tokenBytes expectedOrigin
  = Ok (mkHw true None (Some (del_issuer d)) (Some (del_audience d))).
Proof.
  intros Hx Hd Hv Hvalid He. unfold hw_check_delegation.
  rewrite Hx. cbn [bind delegation_signature delegation_payload issuer_did]. rewrite Hd.
  cbn [bind]. destruct (del_payload d) as [pb|e'] eqn:Ep; cbn [bind js_try]; [|reflexivity].
  rewrite (Hv pb eq_refl). cbn [bind]. rewrite Hvalid. cbn [negb].
  rewrite reconstructSignedData_eq. cbn [bind issuer_did]. rewrite He. reflexivity.
Qed.

(** X22: what [valid: true] from [verifyHardwareDelegation] means: the
    token bytes were extracted to a delegation [d] and the result carries
    its issuer and audience; and either [d]'s signature is not a WebAuthn
    varsig, or it is one and computing the payload bytes
    ([JSON.stringify(delegation.data)]) throws, or it is one whose assertion
    passes the structural checks (the payload bytes' SHA-256 as challenge,
    user verification required) and then either the issuer's key cannot be
    extracted from its DID, or Ed25519 verification of the signature over
    authenticatorData followed by SHA-256(clientDataJSON) under that key
    succeeded. *)
Theorem hardware_valid_means (proof expectedOrigin : list Z) r :
  verifyHardwareDelegation JSON_parse sha256 subtle_verify_ed25519 extract proof expectedOrigin
  = Ok r ->
  hw_valid r = true ->
  exists tokenBytes d,
    extract tokenBytes = Ok (ExtractOk d) /\
    r = mkHw true None (Some (del_issuer d)) (Some (del_audience d)) /\
    ((exists e, decodeWebAuthnVarsig (del_signature d) = Throw e) \/
     (exists decoded e,
        decodeWebAuthnVarsig (del_signature d) = Ok decoded /\ del_payload d = Throw e) \/
     (exists decoded payloadBytes vr,
        decodeWebAuthnVarsig (del_signature d) = Ok decoded /\
        del_payload d = Ok payloadBytes /\
        verifyWebAuthnAssertion JSON_parse decoded
          (mkOptions expectedOrigin (sha256 payloadBytes) (Some true)) = Ok vr /\
        valid vr = true /\
        ((exists e, extractPublicKeyFromDid (del_issuer d) = Throw e) \/
         (exists publicKey, extractPublicKeyFromDid (del_issuer d) = Ok publicKey /\
            verifyEd25519Signature subtle_verify_ed25519
              (dec_authenticatorData decoded ++ sha256 (dec_clientDataJSON decoded))
              (dec_signature decoded) publicKey = Ok true)))).
Proof.
  intros H Hvalid. unfold verifyHardwareDelegation in H. cbv zeta in H.
  destruct (atob _) as [bs|e]; cbn [bind js_try] in H;
    [|injection H as <-; discriminate].
  set (tb := map (fun c => c mod 256) bs) in H.
  destruct (hw_check_delegation JSON_parse sha256 subtle_verify_ed25519 extract tb expectedOrigin)
    as [r'|e] eqn:Hc; cbn [js_try] in H; [|injection H as <-; discriminate].
  injection H as ->. exists tb. unfold hw_check_delegation in Hc.
  destruct (extract tb) as [[d|]|e] eqn:Hx; cbn [bind] in Hc; [| |discriminate].
  2:{ cbn in Hc. discriminate. }
  exists d. split; [reflexivity|].
  cbn [delegation_signature delegation_payload issuer_did audience_did] in Hc.
  destruct (decodeWebAuthnVarsig (del_signature d)) as [decoded|e] eqn:Hd; cbn [bind js_try] in Hc.
  2:{ injection Hc as <-. split; [reflexivity|]. left. eauto. }
  destruct (del_payload d) as [pb|e] eqn:Ep; cbn [bind js_try] in Hc.
  2:{ injection Hc as <-. split; [reflexivity|]. right. left. eauto. }
  destruct (verifyWebAuthnAssertion_ok JSON_parse decoded
              (mkOptions expectedOrigin (sha256 pb) (Some true))) as [vr Hv].
  rewrite Hv in Hc. cbn [bind] in Hc.
  destruct (valid vr) eqn:Hvr; cbn [negb] in Hc; [|injection Hc as <-; discriminate].
  rewrite reconstructSignedData_eq in Hc. cbn [bind] in Hc.
  destruct (extractPublicKeyFromDid (del_issuer d)) as [pk|e] eqn:He; cbn [bind js_try] in Hc.
  2:{ injection Hc as <-. split; [reflexivity|]. right. right. exists decoded, pb, vr.
      eauto 7. }
  destruct (verifyEd25519Signature subtle_verify_ed25519
              (dec_authenticatorData decoded ++ sha256 (dec_clientDataJSON decoded))
              (dec_signature decoded) pk) as [b|e] eqn:Hs.
  2:{ exfalso. unfold verifyEd25519Signature in Hs.
      destruct (subtle_verify_ed25519 _ _ _); cbn [js_try] in Hs; discriminate. }
  cbn [bind js_try] in Hc.
  destruct b; cbn [negb js_try] in Hc; [|injection Hc as <-; discriminate].
  injection Hc as <-. split; [reflexivity|]. right. right. exists decoded, pb, vr.
  split; [reflexivity|]. split; [reflexivity|]. split; [exact Hv|]. split; [exact Hvr|].
  right. eauto.
Qed.

(** X23: when ucanto's [extract] returns an error result,
    [(extractResult as any).ok || extractResult] is that error object;
    its missing signature decodes as an empty array, the varsig decoder
    throws, and the inner [catch] reads [issuer.did()] of [undefined]: the
    [TypeError] reaches the outer [catch], and the result is
    [valid: false] with 'Verification error: ..', never the
    'Failed to extract delegation' result. *)
Theorem hardware_extract_error (carBytes expectedOrigin : list Z) :
  Forall (fun x => 0 <= x < 256) carBytes ->
  extract carBytes = Ok ExtractError ->
  exists proof, createHardwareDelegation_proof carBytes = Ok proof /\
    verifyHardwareDelegation JSON_parse sha256 subtle_verify_ed25519 extract proof expectedOrigin
    = Ok (hw_failure (HwVerificationError TypeError)).
Proof.
  intros Hb Hx. destruct (hw_proof_token carBytes expectedOrigin Hb) as (p & Hp & Hv).
  exists p. split; [exact Hp|]. subst verifyHD checkHD. rewrite Hv.
  unfold hw_check_delegation. rewrite Hx. reflexivity.
Qed.

End HardwareDelegationProofs.

Lemma hardware_proof_roundtrip_witness :
  createHardwareDelegation_proof [1; 2; 3] = Ok (js_str "uAQID") /\
  verifyHardwareDelegation (sample_parse "webauthn.get" "https://example.com") sample_sha256
    accept_all_verify (sample_extract ExtractError) (js_str "uAQID") (js_str "https://example.com")
  = js_try (hw_check_delegation (sample_parse "webauthn.get" "https://example.com") sample_sha256
              accept_all_verify (sample_extract ExtractError) [1; 2; 3]
              (js_str "https://example.com"))
      (fun error => Ok (hw_failure (HwVerificationError error))).
Proof.
  destruct (hardware_proof_roundtrip (sample_parse "webauthn.get" "https://example.com")
              sample_sha256 accept_all_verify (sample_extract ExtractError) [1; 2; 3]
              (js_str "https://example.com") ltac:(repeat constructor; lia))
    as (p & E1 & E2).
  assert (Hp : p = js_str "uAQID") by (vm_compute in E1; injection E1 as <-; reflexivity).
  subst p. split; [exact E1 | exact E2].
Defined.

Lemma hardware_accepts_non_varsig_witness :
  verifyHardwareDelegation (sample_parse "webauthn.get" "https://example.com") sample_sha256
    accept_all_verify (sample_extract (ExtractOk (sample_delegation [1; 2; 3] "did:key:zIssuer")))
    (js_str "uAQID") (js_str "https://evil.com")
  = Ok (mkHw true None (Some (js_str "did:key:zIssuer")) (Some (js_str "did:key:zAudience"))).
Proof.
  destruct (hardware_accepts_non_varsig (sample_parse "webauthn.get" "https://example.com")
              sample_sha256 accept_all_verify
              (sample_extract (ExtractOk (sample_delegation [1; 2; 3] "did:key:zIssuer")))
              [1; 2; 3] (js_str "https://evil.com") (sample_delegation [1; 2; 3] "did:key:zIssuer")
              (UnsupportedMulticodec 1)
              ltac:(repeat constructor; lia) eq_refl ltac:(vm_compute; reflexivity))
    as (p & E1 & E2).
  assert (Hp : p = js_str "uAQID") by (vm_compute in E1; injection E1 as <-; reflexivity).
  subst p. exact E2.
Defined.

Lemma hardware_accepts_unusable_issuer_witness :
  hw_check_delegation (sample_parse "webauthn.get" "https://example.com") sample_sha256
    accept_all_verify
    (sample_extract (ExtractOk (sample_delegation (ed_envelope (repeat 7 64)) "did:web:example.com")))
    [] (js_str "https://example.com")
  = Ok (mkHw true None (Some (js_str "did:web:example.com")) (Some (js_str "did:key:zAudience"))).
Proof.
  exact (hardware_accepts_unusable_issuer (sample_parse "webauthn.get" "https://example.com")
           sample_sha256 accept_all_verify
           (sample_extract (ExtractOk (sample_delegation (ed_envelope (repeat 7 64))
                                         "did:web:example.com")))
           [] (js_str "https://example.com")
           (sample_delegation (ed_envelope (repeat 7 64)) "did:web:example.com")
           (sample_decoded sample_authData)
           (mkResult true None (Some (sample_client_record "webauthn.get" "https://example.com"))
              (Some (mkFlags true true false false)))
           InvalidDidFormat
           eq_refl ltac:(vm_compute; reflexivity)
           ltac:(intros pb Hpb; injection Hpb as <-; vm_compute; reflexivity)
           eq_refl ltac:(vm_compute; reflexivity)).
Defined.

Lemma hardware_valid_means_witness :
  verifyHardwareDelegation (sample_parse "webauthn.get" "https://example.com") sample_sha256
    accept_all_verify (sample_extract (ExtractOk (sample_delegation [1; 2; 3] "did:key:zIssuer")))
    (js_str "uAQID") (js_str "https://example.com")
  = Ok (mkHw true None (Some (js_str "did:key:zIssuer")) (Some (js_str "did:key:zAudience"))) /\
  exists tokenBytes d,
    sample_extract (ExtractOk (sample_delegation [1; 2; 3] "did:key:zIssuer")) tokenBytes
    = Ok (ExtractOk d) /\
    mkHw true None (Some (js_str "did:key:zIssuer")) (Some (js_str "did:key:zAudience"))
    = mkHw true None (Some (del_issuer d)) (Some (del_audience d)).
Proof.
  assert (H : verifyHardwareDelegation (sample_parse "webauthn.get" "https://example.com")
                sample_sha256 accept_all_verify
                (sample_extract (ExtractOk (sample_delegation [1; 2; 3] "did:key:zIssuer")))
                (js_str "uAQID") (js_str "https://example.com")
              = Ok (mkHw true None (Some (js_str "did:key:zIssuer"))
                      (Some (js_str "did:key:zAudience"))))
    by (vm_compute; reflexivity).
  split; [exact H|].
  destruct (hardware_valid_means _ _ _ _ _ _ _ H eq_refl) as (tb & d & E1 & E2 & _).
  exists tb, d. split; [exact E1 | exact E2].
Defined.

Lemma hardware_extract_error_witness :
  verifyHardwareDelegation (sample_parse "webauthn.get" "https://example.com") sample_sha256
    accept_all_verify (sample_extract ExtractError) (js_str "uAQID") (js_str "https://example.com")
  = Ok (hw_failure (HwVerificationError TypeError)).
Proof.
  destruct (hardware_extract_error (sample_parse "webauthn.get" "https://example.com")
              sample_sha256 accept_all_verify (sample_extract ExtractError) [1; 2; 3]
              (js_str "https://example.com") ltac:(repeat constructor; lia) eq_refl)
    as (p & E1 & E2).
  assert (Hp : p = js_str "uAQID") by (vm_compute in E1; injection E1 as <-; reflexivity).
  subst p. exact E2.
Defined.

(* ------------------------------------------------------------------ *)
(** ** extractPublicKeyFromDid on malformed identifiers *)

(** A character whose [BASE_MAP] entry is 255 makes the loop fail, wherever
    it stands. *)
Lemma baseX_decode_loop_invalid (N : Z) (source : list Z) (c : Z) :
  In c source -> BASE_MAP c = Some 255 -> baseX_decode_loop N source = None.
Proof.
  revert N; induction source as [|x source IH]; intros N Hin Hc; [contradiction|].
  cbn [baseX_decode_loop]. destruct Hin as [->|Hin].
  - rewrite Hc. reflexivity.
  - destruct (BASE_MAP x) as [carry|].
    + destruct (carry =? 255); [reflexivity | apply IH; assumption].
    + apply IH; assumption.
Qed.

(** X24: [extractPublicKeyFromDid] rejects a [did:key:z] identifier whose
    text after the [z] has a character with a code unit below 256 outside
    the base58 alphabet (such as [0], [O], [I], [l], [+] or a space):
    base58btc decoding throws 'Non-base58 character'. *)
Theorem extractPublicKeyFromDid_non_base58 (rest : list Z) (c : Z) :
  In c rest -> 0 <= c < 256 -> b58_index c = None ->
  extractPublicKeyFromDid (js_str "did:key:z" ++ rest) = Throw NonBase58Character.
Proof.
  intros Hin Hr Hc. unfold extractPublicKeyFromDid.
  change (starts_with (js_str "did:key:z" ++ rest) (js_str "did:key:z")) with true.
  change (skipn 8 (js_str "did:key:z" ++ rest)) with (122 :: rest).
  cbn [negb base58btc_decode]. rewrite Z.eqb_refl. unfold baseX_decode.
  destruct (count_leading_split 49 rest) as [Hs _].
  rewrite (baseX_decode_loop_invalid 0 _ c); [reflexivity| |].
  2:{ unfold BASE_MAP. rewrite Hc.
      replace ((0 <=? c) && (c <? 256)) with true by (symmetry; apply andb_true_iff; lia).
      reflexivity. }
  rewrite Hs in Hin. apply in_app_or in Hin as [Hin|Hin]; [|exact Hin].
  apply repeat_spec in Hin. subst c. discriminate.
Qed.

Lemma extractPublicKeyFromDid_non_base58_witness :
  extractPublicKeyFromDid (js_str "did:key:z6Mk0") = Throw NonBase58Character.
Proof.
  exact (extractPublicKeyFromDid_non_base58 (js_str "6Mk0") 48
           ltac:(vm_compute; tauto) ltac:(lia) ltac:(vm_compute; reflexivity)).
Defined.

(* ------------------------------------------------------------------ *)
(** ** Overlong length prefixes; client data that is not an object *)

Lemma varintDecode_overlong (pre rest : list Z) (x : Z) :
  0 <= x < 128 ->
  varintDecode (pre ++ [x + 128; 0] ++ rest) (Z.of_nat (length pre)) = Ok (x, 2).
Proof.
  intros Hx. rewrite varintDecode_skip by reflexivity.
  unfold varintDecode. rewrite reads_from_nonneg by lia.
  assert (Hl : Z.lor x (1 * 2 ^ 7) = x + 1 * 2 ^ 7) by (apply lor_disjoint; lia).
  change (1 * 2 ^ 7) with 128 in Hl. rewrite <- Hl.
  destruct (varint_byte_facts x Hx) as (H1 & H2 & H3 & _ & _).
  cbn [skipn Z.to_nat map app varintDecode_loop read_and].
  rewrite (ToInt32_small (Z.lor x 128)) by lia. rewrite H1, H2.
  change (ToInt32 0) with 0. change (Z.land 0 127) with 0. change (Z.land 0 128) with 0.
  cbn [Z.eqb Z.ltb Z.compare Z.add Pos.compare Pos.compare_cont].
  rewrite (js_shl_small x 0) by (cbn; lia). rewrite Z.pow_0_r, Z.mul_1_r.
  change (js_shl 0 7) with 0. unfold js_or. change (ToInt32 0) with 0.
  rewrite (ToInt32_small x) by lia. rewrite Z.lor_0_l, (ToInt32_small x) by lia.
  rewrite Z.lor_0_r. rewrite !(ToInt32_small x) by lia. reflexivity.
Qed.

(** X25: the decoder accepts non-minimal varints, so one assertion has
    several envelopes: writing the length of an authenticatorData shorter
    than 128 bytes as the two bytes [len | 0x80, 0x00] instead of the one
    byte [len] gives a different byte string with the same decoded result. *)
Theorem decode_accepts_overlong_length (alg : SignatureAlgorithm) (a c s : list Z) :
  (length a < 128)%nat -> Z.of_nat (length c) < 2 ^ 31 ->
  let tag := varintEncode (ALGORITHM_TO_MULTICODEC alg) in
  let tail := a ++ varintEncode (Z.of_nat (length c)) ++ c ++ s in
  tag ++ [Z.of_nat (length a) + 128; 0] ++ tail <> tag ++ varintEncode (Z.of_nat (length a)) ++ tail /\
  decodeWebAuthnVarsig (tag ++ [Z.of_nat (length a) + 128; 0] ++ tail)
  = decodeWebAuthnVarsig (tag ++ varintEncode (Z.of_nat (length a)) ++ tail).
Proof.
  intros Ha Hc tag tail. split.
  - intros E. apply app_inv_head in E.
    replace (varintEncode (Z.of_nat (length a))) with [Z.of_nat (length a)] in E.
    + apply (f_equal (@length Z)) in E. cbn in E. lia.
    + unfold varintEncode. cbn [varintEncode_loop].
      replace (128 <=? Z.of_nat (length a)) with false by (symmetry; apply Z.leb_gt; lia).
      f_equal. destruct (varint_byte_facts (Z.of_nat (length a)) ltac:(lia)) as (_ & _ & _ & _ & H).
      symmetry; exact H.
  - subst tag tail.
    rewrite decode_layout by lia.
    apply decode_layout_with; intros pre rest.
    + apply varintDecode_overlong. lia.
    + apply varint_roundtrip_at. lia.
Qed.

Lemma decode_accepts_overlong_length_witness :
  decodeWebAuthnVarsig ([209; 93] ++ [37 + 128; 0] ++ sample_authData ++ [2] ++ sample_clientData
                        ++ repeat 7 64)
  = decodeWebAuthnVarsig (ed_envelope (repeat 7 64)).
Proof.
  exact (proj2 (decode_accepts_overlong_length Ed25519 sample_authData sample_clientData
                  (repeat 7 64) ltac:(cbn; lia) ltac:(cbn; lia))).
Defined.

Section ClientDataShapes.

Variable JSON_parse : list Z -> Exn json.

(** X26: clientDataJSON that parses to JSON [null] makes
    [parseClientDataJSON] throw 'Failed to parse clientDataJSON' around the
    [TypeError] of reading [null.type], which the verifier returns as a
    'Verification failed' result; one that parses to a number, string,
    boolean or array gives client data with every field [undefined], which
    the verifier rejects as ceremony type 'undefined'. *)
Theorem client_data_not_an_object decoded options v :
  JSON_parse (dec_clientDataJSON decoded) = Ok v ->
  (v = JNull ->
   parseClientDataJSON JSON_parse (dec_clientDataJSON decoded)
     = Throw (ClientDataParseError TypeError) /\
   verifyWebAuthnAssertion JSON_parse decoded options
     = Ok (failure (ErrVerificationFailed (ClientDataParseError TypeError)))) /\
  (v <> JNull -> (forall members, v <> JObj members) ->
   parseClientDataJSON JSON_parse (dec_clientDataJSON decoded)
     = Ok (mkClientData None None None None) /\
   verifyWebAuthnAssertion JSON_parse decoded options
     = Ok (failure (ErrCeremonyType (js_str "undefined")))).
Proof.
  intros Hp.
  split.
  - intros ->. unfold verifyWebAuthnAssertion, verify_body, parseClientDataJSON.
    rewrite Hp. split; reflexivity.
  - intros Hn Ho.
    assert (Hq : parseClientDataJSON JSON_parse (dec_clientDataJSON decoded)
                 = Ok (mkClientData None None None None)).
    { unfold parseClientDataJSON. rewrite Hp.
      destruct v; try contradiction; [| | | |exfalso; exact (Ho members eq_refl)];
        reflexivity. }
    split; [exact Hq|].
    unfold verifyWebAuthnAssertion, verify_body. rewrite Hq. reflexivity.
Qed.

End ClientDataShapes.

Lemma client_data_not_an_object_witness :
  verifyWebAuthnAssertion (fun _ => Ok JNull) (sample_decoded sample_authData) (sample_options None)
  = Ok (failure (ErrVerificationFailed (ClientDataParseError TypeError))) /\
  verifyWebAuthnAssertion (fun _ => Ok (JNum (js_str "5"))) (sample_decoded sample_authData)
    (sample_options None)
  = Ok (failure (ErrCeremonyType (js_str "undefined"))).
Proof.
  split.
  - exact (proj2 (proj1 (client_data_not_an_object (fun _ => Ok JNull)
                           (sample_decoded sample_authData) (sample_options None) JNull eq_refl)
                   eq_refl)).
  - exact (proj2 (proj2 (client_data_not_an_object (fun _ => Ok (JNum (js_str "5")))
                           (sample_decoded sample_authData) (sample_options None)
                           (JNum (js_str "5")) eq_refl)
                   ltac:(discriminate) ltac:(intros m; discriminate))).
Defined.

Lemma verify_valid_sound_witness :
  exists cd,
    parseClientDataJSON (sample_parse "webauthn.get" "https://example.com")
      (dec_clientDataJSON (sample_decoded sample_authData)) = Ok cd /\
    cd_type cd = Some (JStr (js_str "webauthn.get")) /\
    cd_origin cd = Some (JStr (expectedOrigin (sample_options None))) /\
    challenge_bytes (cd_challenge cd) = Ok (expectedChallenge (sample_options None)) /\
    (37 <= length (dec_authenticatorData (sample_decoded sample_authData)))%nat /\
    Z.land (nth 32 (dec_authenticatorData (sample_decoded sample_authData)) 0) 1 <> 0 /\
    (requireUserVerification (sample_options None) = Some false \/
     Z.land (nth 32 (dec_authenticatorData (sample_decoded sample_authData)) 0) 4 <> 0).
Proof.
  apply (verify_valid_sound (sample_parse "webauthn.get" "https://example.com")
           (sample_decoded sample_authData) (sample_options None)
           (mkResult true None (Some (sample_client_record "webauthn.get" "https://example.com"))
              (Some (mkFlags true true false false)))).
  - vm_compute. reflexivity.
  - reflexivity.
Defined.
